(** * feature_mining.parse_and_model: a shallow embedding and its properties

    The three functions of [parse_and_model.py] are embedded here:
    [format_feature_list], [read_annotated_data] and [build_explicit_models].

    Conventions of the embedding.
    - Python integers are [Z].
    - A Python [str] is a [string]; a character is a code point below 256.
    - A Python [dict], [Counter] or [defaultdict] is an association list that
      keeps the insertion order of its keys, as Python's dictionaries do.
    - A list of dictionaries handed to [pd.DataFrame] is the list of its rows.
    - A raised exception is the left injection of [result].
    - Python floats are the real numbers of the Standard Library: rounding is
      not part of the model. *)

From Stdlib Require Import List String Ascii ZArith Lia Bool Arith.
From Stdlib Require Import Sorted Reals Lra.
Import ListNotations.

Local Open Scope string_scope.
Local Open Scope list_scope.

(** ** Exceptions *)

Inductive exn : Type :=
| ValueError (msg : string)
| IndexError (msg : string)
| ZeroDivisionError (msg : string).

Definition result (A : Type) : Type := (exn + A)%type.

Definition ret {A : Type} (a : A) : result A := inr a.
Definition raise {A : Type} (e : exn) : result A := inl e.

Definition bind {A B : Type} (m : result A) (k : A -> result B) : result B :=
  match m with
  | inl e => inl e
  | inr a => k a
  end.

Notation "x <- m ;; k" := (bind m (fun x => k))
  (at level 61, m at next level, right associativity).

(** Consecutive integers [start, start + 1, ...], [len] of them. *)
Fixpoint zrange (start : Z) (len : nat) : list Z :=
  match len with
  | O => []
  | S n => start :: zrange (start + 1) n
  end.

(** ** FeatureCatalog: [format_feature_list] *)

Module FeatureCatalog.

(** The values a caller can put in [feature_list]. *)
#[warning="-register-all"]
Inductive pyobj : Type :=
| PyStr (s : string)
| PyList (items : list pyobj)
| PyTuple (items : list pyobj)
| PyInt (n : Z)
| PyNone.

Record feature_row : Type := mk_feature_row {
  feature_term_id : Z;
  feature_id : Z;
  feature : string
}.

Definition not_a_string_msg : string := " is not a string or a list of strings".

Section Format.

(** The builtin [str], applied by the code to the values it rejects. *)
Variable py_str : pyobj -> string.

(** The loop [for synonym in feature]; [parent] is [feature] itself. *)
Fixpoint synonyms_loop (parent : pyobj) (feature_index : Z)
    (synonyms : list pyobj) (feature_term_index : Z)
    (formatted_feature_list : list feature_row)
  : result (Z * list feature_row) :=
  match synonyms with
  | [] => ret (feature_term_index, formatted_feature_list)
  | synonym :: rest =>
      match synonym with
      | PyStr s =>
          synonyms_loop parent feature_index rest (feature_term_index + 1)
            (formatted_feature_list
               ++ [mk_feature_row feature_term_index feature_index s])
      | _ =>
          raise (ValueError
                   (py_str parent ++ ">" ++ py_str synonym ++ not_a_string_msg))
      end
  end.

(** The loop [for feature in feature_list]. *)
Fixpoint features_loop (feature_list : list pyobj)
    (feature_index feature_term_index : Z)
    (formatted_feature_list : list feature_row)
  : result (list feature_row) :=
  match feature_list with
  | [] => ret formatted_feature_list
  | feature :: rest =>
      match feature with
      | PyStr s =>
          features_loop rest (feature_index + 1) (feature_term_index + 1)
            (formatted_feature_list
               ++ [mk_feature_row feature_term_index feature_index s])
      | PyList synonyms =>
          st <- synonyms_loop feature feature_index synonyms
                  feature_term_index formatted_feature_list ;;
          features_loop rest (feature_index + 1) (fst st) (snd st)
      | _ => raise (ValueError (py_str feature ++ not_a_string_msg))
      end
  end.

Definition format_feature_list (feature_list : list pyobj)
  : result (list feature_row) :=
  features_loop feature_list 0 0 [].

End Format.

(** *** Vocabulary used to state the properties *)

Definition is_str (o : pyobj) : bool :=
  match o with PyStr _ => true | _ => false end.

(** An entry the code accepts: a string, or a list whose elements are all
    strings. *)
Definition well_formed_entry (o : pyobj) : bool :=
  match o with
  | PyStr _ => true
  | PyList items => forallb is_str items
  | _ => false
  end.

Definition strings_of (items : list pyobj) : list string :=
  flat_map (fun o => match o with PyStr s => [s] | _ => [] end) items.

(** The terms an entry contributes to the table. *)
Definition entry_terms (o : pyobj) : list string :=
  match o with
  | PyStr s => [s]
  | PyList items => strings_of items
  | _ => []
  end.

Definition is_empty_list (o : pyobj) : bool :=
  match o with PyList [] => true | _ => false end.

(** The first element of a list that is not a string. *)
Fixpoint first_non_string (items : list pyobj) : option pyobj :=
  match items with
  | [] => None
  | PyStr _ :: rest => first_non_string rest
  | o :: _ => Some o
  end.

(** The message raised for a rejected entry. *)
Definition rejection_message (py_str : pyobj -> string) (o : pyobj) : string :=
  match o with
  | PyList items =>
      match first_non_string items with
      | Some child => py_str o ++ ">" ++ py_str child ++ not_a_string_msg
      | None => py_str o ++ not_a_string_msg
      end
  | _ => py_str o ++ not_a_string_msg
  end.

(** The rows of [terms], numbered from [term_index] on, all under
    [feature_index]. *)
Fixpoint number_terms (feature_index term_index : Z) (terms : list string)
  : list feature_row :=
  match terms with
  | [] => []
  | s :: rest =>
      mk_feature_row term_index feature_index s
        :: number_terms feature_index (term_index + 1) rest
  end.

(** The rows of a list of entries: entry after entry, one feature id each. *)
Fixpoint catalog_rows (entries : list pyobj) (feature_index term_index : Z)
  : list feature_row :=
  match entries with
  | [] => []
  | e :: rest =>
      number_terms feature_index term_index (entry_terms e)
        ++ catalog_rows rest (feature_index + 1)
             (term_index + Z.of_nat (List.length (entry_terms e)))
  end.

Definition rows_with_id (i : Z) (rows : list feature_row) : list feature_row :=
  filter (fun r => Z.eqb (feature_id r) i) rows.

(** A stand-in for [str], used to run the examples: strings print as
    themselves and containers by their elements. *)
Fixpoint show (o : pyobj) : string :=
  match o with
  | PyStr s => s
  | PyList items => "[" ++ String.concat ", " (map show items) ++ "]"
  | PyTuple items => "(" ++ String.concat ", " (map show items) ++ ")"
  | PyInt _ => "<int>"
  | PyNone => "None"
  end.

(** A row with its ids moved up by [d_feature] and [d_term]. *)
Definition shift_row (d_feature d_term : Z) (r : feature_row) : feature_row :=
  mk_feature_row (feature_term_id r + d_term) (feature_id r + d_feature)
    (feature r).

End FeatureCatalog.

(** ** Strings *)

Module Str.

(** [s[n:]] *)
Fixpoint drop (n : nat) (s : string) : string :=
  match n, s with
  | O, _ => s
  | S _, EmptyString => EmptyString
  | S m, String _ s' => drop m s'
  end.

(** [s[:n]] *)
Fixpoint take (n : nat) (s : string) : string :=
  match n, s with
  | O, _ => EmptyString
  | S _, EmptyString => EmptyString
  | S m, String c s' => String c (take m s')
  end.

(** [s.startswith(p)] *)
Definition startswith (p s : string) : bool := String.prefix p s.

(** [s.find(sub)], with [None] for Python's [-1]. *)
Fixpoint find (sub s : string) : option nat :=
  if startswith sub s then Some O
  else match s with
       | EmptyString => None
       | String _ s' => option_map S (find sub s')
       end.

(** [sub in s] *)
Definition contains (sub s : string) : bool :=
  match find sub s with
  | Some _ => true
  | None => false
  end.

(** [s.split(sep)] for a non-empty [sep]: cut at the leftmost occurrence and
    go on after it.  [fuel] bounds the number of cuts. *)
Fixpoint split_fuel (fuel : nat) (sep s : string) : list string :=
  match fuel with
  | O => [s]
  | S fuel' =>
      match find sep s with
      | None => [s]
      | Some i => take i s :: split_fuel fuel' sep (drop (i + String.length sep) s)
      end
  end.

Definition split (sep s : string) : list string :=
  split_fuel (String.length s) sep s.

(** [c.isspace()] on code points below 256. *)
Definition isspace (c : ascii) : bool :=
  let n := nat_of_ascii c in
  (((9 <=? n) && (n <=? 13)) || ((28 <=? n) && (n <=? 32))
   || (n =? 133) || (n =? 160))%nat.

Fixpoint lstrip (s : string) : string :=
  match s with
  | EmptyString => EmptyString
  | String c s' => if isspace c then lstrip s' else s
  end.

Fixpoint rstrip (s : string) : string :=
  match s with
  | EmptyString => EmptyString
  | String c s' =>
      match rstrip s' with
      | EmptyString => if isspace c then EmptyString else String c EmptyString
      | r => String c r
      end
  end.

(** [s.strip()] *)
Definition strip (s : string) : string := rstrip (lstrip s).

(** [c.lower()] on code points below 256. *)
Definition lower_char (c : ascii) : ascii :=
  let n := nat_of_ascii c in
  if (((65 <=? n) && (n <=? 90))
      || ((192 <=? n) && (n <=? 222) && negb (n =? 215)))%nat
  then ascii_of_nat (n + 32)
  else c.

(** [s.lower()] *)
Fixpoint lower (s : string) : string :=
  match s with
  | EmptyString => EmptyString
  | String c s' => String (lower_char c) (lower s')
  end.

(** [l[i]] *)
Definition index {A : Type} (l : list A) (i : nat) : result A :=
  match nth_error l i with
  | Some a => ret a
  | None => raise (IndexError "list index out of range")
  end.

End Str.

(** ** Dictionaries that keep insertion order *)

Module Dict.

Section Ops.

Context {K V : Type}.
Variable eqb : K -> K -> bool.

Definition t : Type := list (K * V).

(** [d.get(k)] *)
Fixpoint get (k : K) (d : t) : option V :=
  match d with
  | [] => None
  | (k', v) :: rest => if eqb k' k then Some v else get k rest
  end.

(** [d[k] = v]: an existing key keeps its place, a new key goes last. *)
Fixpoint set (k : K) (v : V) (d : t) : t :=
  match d with
  | [] => [(k, v)]
  | (k', v') :: rest =>
      if eqb k' k then (k', v) :: rest else (k', v') :: set k v rest
  end.

(** [d[k]] of a [defaultdict] or [Counter] whose missing value is [dflt]. *)
Definition get_default (dflt : V) (k : K) (d : t) : V :=
  match get k d with
  | Some v => v
  | None => dflt
  end.

Definition keys (d : t) : list K := map fst d.
Definition values (d : t) : list V := map snd d.

End Ops.

End Dict.

(** ** CorpusReader: [read_annotated_data] *)

Module CorpusReader.

Record section_row : Type := mk_section_row {
  doc_id : Z;
  section_id : Z;
  section_text : string;
  title : bool
}.

Record mapping_row : Type := mk_mapping_row {
  mapping_doc_id : Z;
  mapping_section_id : Z;
  feature : string;
  is_explicit : bool
}.

(** The local variables of [read_annotated_data] that live across lines. *)
Record state : Type := mk_state {
  st_doc_id : Z;
  st_section_id : Z;
  st_section_list : list section_row;
  st_feature_section_mapping : list mapping_row;
  st_feature_list : Dict.t (K := string) (V := Z)
}.

Definition initial_state : state := mk_state (-1) 0 [] [] [].

(** The body of [for feature in feature_string]. *)
Fixpoint annotations_loop (doc_id section_id : Z) (feature_string : list string)
    (feature_section_mapping : list mapping_row)
    (feature_list : Dict.t (K := string) (V := Z))
  : result (list mapping_row * Dict.t (K := string) (V := Z)) :=
  match feature_string with
  | [] => ret (feature_section_mapping, feature_list)
  | feature :: rest =>
      let explicit_feature := negb (Str.contains "[u]" feature) in
      feature_text <- Str.index (Str.split "[@]" feature) 0 ;;
      annotations_loop doc_id section_id rest
        (feature_section_mapping
           ++ [mk_mapping_row doc_id section_id feature_text explicit_feature])
        (Dict.set String.eqb feature_text
           (Dict.get_default String.eqb 0%Z feature_text feature_list + 1)%Z
           feature_list)
  end.

(** The three-way test at the head of the loop body: the new [doc_id],
    [is_title] and [line_text]. *)
Definition classify_line (doc_id : Z) (line : string)
  : result (Z * bool * string) :=
  if Str.contains "[t]" line then
    piece <- Str.index (Str.split "[t]" line) 1 ;;
    ret ((doc_id + 1)%Z, true, Str.lower (Str.strip piece))
  else if Str.startswith "*" line then
    piece <- Str.index (Str.split "*" line) 1 ;;
    ret ((doc_id + 1)%Z, true, Str.lower (Str.strip piece))
  else
    piece <- Str.index (Str.split "##" line) 1 ;;
    ret (doc_id, false, Str.lower (Str.strip piece)).

(** One turn of [for line in input_file], up to and including
    [section_id += 1]. *)
Definition process_line (st : state) (line : string) : result state :=
  c <- classify_line (st_doc_id st) line ;;
  let doc_id := fst (fst c) in
  let is_title := snd (fst c) in
  let line_text := snd c in
  annotation <- Str.index (Str.split "##" line) 0 ;;
  let feature_string := Str.split "," annotation in
  first <- Str.index feature_string 0 ;;
  acc <- (if negb is_title && negb (String.eqb first "")
          then annotations_loop doc_id (st_section_id st) feature_string
                 (st_feature_section_mapping st) (st_feature_list st)
          else ret (st_feature_section_mapping st, st_feature_list st)) ;;
  ret (mk_state doc_id (st_section_id st + 1)%Z
         (st_section_list st
            ++ [mk_section_row doc_id (st_section_id st) line_text is_title])
         (fst acc) (snd acc)).

(** [for line in input_file], with the [break] on [nlines]. *)
Fixpoint lines_loop (nlines : option Z) (st : state) (input_file : list string)
  : result state :=
  match input_file with
  | [] => ret st
  | line :: rest =>
      st' <- process_line st line ;;
      match nlines with
      | Some n =>
          if (st_section_id st' >=? n)%Z then ret st'
          else lines_loop nlines st' rest
      | None => lines_loop nlines st' rest
      end
  end.

Record annotated_data : Type := mk_annotated_data {
  section_list : list section_row;
  feature_mapping : list mapping_row;
  feature_list : Dict.t (K := string) (V := Z)
}.

(** [input_file] is the sequence of lines the opened file yields. *)
Definition read_annotated_data (input_file : list string) (nlines : option Z)
  : result annotated_data :=
  st <- lines_loop nlines initial_state input_file ;;
  ret (mk_annotated_data (st_section_list st)
         (st_feature_section_mapping st) (st_feature_list st)).

(** *** Vocabulary used to state the properties *)

(** A title line: it contains [[t]] or starts with [*]. *)
Definition is_title_line (line : string) : bool :=
  Str.contains "[t]" line || Str.startswith "*" line.

(** The marker that makes a line a title. *)
Definition title_marker (line : string) : string :=
  if Str.contains "[t]" line then "[t]" else "*".

(** Everything after the first occurrence of [marker]. *)
Definition after_first (marker line : string) : string :=
  match Str.find marker line with
  | Some i => Str.drop (i + String.length marker) line
  | None => EmptyString
  end.

(** What precedes the first occurrence of [marker], or all of it. *)
Definition up_to_next (marker s : string) : string :=
  match Str.find marker s with
  | Some i => Str.take i s
  | None => s
  end.

(** The text kept of a line: of a title line, what stands between its first
    marker and the next one; of a body line, what stands between its first
    [##] and the next one; trimmed and lowercased. *)
Definition line_text (line : string) : string :=
  let marker := if is_title_line line then title_marker line else "##" in
  Str.lower (Str.strip (up_to_next marker (after_first marker line))).

(** The section a line yields when the current document is [doc]. *)
Definition section_of (doc sid : Z) (line : string) : section_row :=
  mk_section_row (if is_title_line line then doc + 1 else doc)%Z sid
    (line_text line) (is_title_line line).

(** The sections of consecutive lines. *)
Fixpoint sections_of (doc sid : Z) (lines : list string) : list section_row :=
  match lines with
  | [] => []
  | line :: rest =>
      section_of doc sid line
        :: sections_of (if is_title_line line then doc + 1 else doc)%Z
             (sid + 1)%Z rest
  end.

(** How many lines the loop goes through before it ends or breaks, when no
    line raises. *)
Definition lines_read (nlines : option Z) (lines : list string) : nat :=
  match nlines with
  | None => List.length lines
  | Some n => Nat.min (List.length lines) (Z.to_nat (Z.max 1 n))
  end.

(** The title lines among [lines]. *)
Definition count_titles (lines : list string) : Z :=
  Z.of_nat (List.length (filter is_title_line lines)).

(** The annotation part of a line: what precedes its first [##]. *)
Definition annotation_field (line : string) : string := up_to_next "##" line.

(** The comma-separated annotations of a line. *)
Definition annotations (line : string) : list string :=
  Str.split "," (annotation_field line).

(** A body line whose first annotation is not empty. *)
Definition has_annotations (line : string) : bool :=
  negb (is_title_line line) && negb (String.eqb (hd EmptyString (annotations line)) "").

(** The mention an annotation stands for. *)
Definition mention_of (doc sid : Z) (annotation : string) : mapping_row :=
  mk_mapping_row doc sid (up_to_next "[@]" annotation)
    (negb (Str.contains "[u]" annotation)).

(** The mentions of a line of section [sid] in document [doc]. *)
Definition mentions_of (doc sid : Z) (line : string) : list mapping_row :=
  if has_annotations line
  then map (mention_of doc sid) (annotations line)
  else [].

(** The mentions of consecutive lines. *)
Fixpoint mentions_of_lines (doc sid : Z) (lines : list string)
  : list mapping_row :=
  match lines with
  | [] => []
  | line :: rest =>
      let doc' := (if is_title_line line then doc + 1 else doc)%Z in
      mentions_of doc' sid line ++ mentions_of_lines doc' (sid + 1)%Z rest
  end.

(** Counting the strings of [features] into [d], one after the other. *)
Definition tally (features : list string) (d : Dict.t (K := string) (V := Z))
  : Dict.t (K := string) (V := Z) :=
  fold_left
    (fun acc f =>
       Dict.set String.eqb f (Dict.get_default String.eqb 0 f acc + 1)%Z acc)
    features d.

(** A line the loop body accepts: a title line or a line with [##]. *)
Definition accepted_line (line : string) : bool :=
  is_title_line line || Str.contains "##" line.

End CorpusReader.

(** ** ModelBuilder: [build_explicit_models] *)

Module ModelBuilder.

(** What the code reads of a spaCy token. *)
Record token : Type := mk_token {
  is_stop : bool;
  is_punct : bool;
  lemma_ : string;
  lower_ : string
}.

(** The columns of [text_set] the code reads. *)
Record text_row : Type := mk_text_row {
  section_id : Z;
  section_text : string
}.

Definition counter : Type := Dict.t (K := string) (V := Z).

(** [c[w]] of a [Counter]. *)
Definition count (w : string) (c : counter) : Z :=
  Dict.get_default String.eqb 0%Z w c.

(** [c.update(words)] *)
Definition counter_update (words : list string) (c : counter) : counter :=
  fold_left (fun acc w => Dict.set String.eqb w (count w acc + 1)%Z acc) words c.

(** [Counter(words)] *)
Definition Counter (words : list string) : counter := counter_update words [].

(** [word in words] *)
Definition mem_str (w : string) (words : list string) : bool :=
  existsb (String.eqb w) words.

Definition mem_Z (i : Z) (l : list Z) : bool := existsb (Z.eqb i) l.

(** [Series.unique()]: the distinct values in order of first appearance. *)
Definition unique (l : list Z) : list Z :=
  fold_left (fun acc i => if mem_Z i acc then acc else acc ++ [i]) l [].

(** The counters filled by the loop over [text_set]. *)
Record counts : Type := mk_counts {
  section_word_list : Dict.t (K := Z) (V := list string);
  section_word_counts : Dict.t (K := Z) (V := counter);
  collection_word_counts : counter;
  word_section_counter : counter;
  feature_word_counter : Dict.t (K := Z) (V := counter);
  feature_section_mapping : list (Z * Z)
}.

Definition empty_counts : counts := mk_counts [] [] [] [] [] [].

(** The words kept from a parsed section. *)
Definition section_words (section : list token) : list string :=
  flat_map
    (fun word =>
       if negb (is_stop word) && negb (is_punct word)
       then [if negb (String.eqb (lemma_ word) "-PRON-")
             then lemma_ word else lower_ word]
       else [])
    section.

(** [for index_f, row_f in feature_set.iterrows()] for one section; the state
    is [found_features], [feature_section_mapping], [feature_word_counter]. *)
Fixpoint explicit_features_loop (row_section_id : Z)
    (current_section_words : list string)
    (current_section_word_counts : counter)
    (feature_set : list FeatureCatalog.feature_row)
    (found_features : list Z) (mapping : list (Z * Z))
    (fwc : Dict.t (K := Z) (V := counter))
  : list (Z * Z) * Dict.t (K := Z) (V := counter) :=
  match feature_set with
  | [] => (mapping, fwc)
  | row_f :: rest =>
      let fid := FeatureCatalog.feature_id row_f in
      if mem_str (FeatureCatalog.feature row_f) current_section_words then
        if mem_Z fid found_features then
          explicit_features_loop row_section_id current_section_words
            current_section_word_counts rest found_features mapping fwc
        else
          explicit_features_loop row_section_id current_section_words
            current_section_word_counts rest (fid :: found_features)
            (mapping ++ [(row_section_id, fid)])
            (Dict.set Z.eqb fid
               (counter_update (Dict.keys current_section_word_counts)
                  (Dict.get_default Z.eqb [] fid fwc))
               fwc)
      else
        explicit_features_loop row_section_id current_section_words
          current_section_word_counts rest found_features mapping fwc
  end.

Section Build.

(** The loaded spaCy pipeline: from a text to its tokens. *)
Variable nlp : string -> list token.

(** One turn of [for index, row in text_set.iterrows()]. *)
Definition count_section (feature_set : list FeatureCatalog.feature_row)
    (acc : counts) (row : text_row) : counts :=
  let section := nlp (section_text row) in
  let current_section_words := section_words section in
  let current_section_word_counts := Counter current_section_words in
  let word_section_counter' :=
    counter_update (Dict.keys current_section_word_counts)
      (word_section_counter acc) in
  let collection_word_counts' :=
    counter_update current_section_words (collection_word_counts acc) in
  let section_word_counts' :=
    Dict.set Z.eqb (section_id row) current_section_word_counts
      (section_word_counts acc) in
  let section_word_list' :=
    Dict.set Z.eqb (section_id row) current_section_words
      (section_word_list acc) in
  let found :=
    explicit_features_loop (section_id row) current_section_words
      current_section_word_counts feature_set []
      (feature_section_mapping acc) (feature_word_counter acc) in
  mk_counts section_word_list' section_word_counts' collection_word_counts'
    word_section_counter' (snd found) (fst found).

Definition count_sections (text_set : list text_row)
    (feature_set : list FeatureCatalog.feature_row) : counts :=
  fold_left (count_section feature_set) text_set empty_counts.

End Build.

Local Open Scope R_scope.

(** [math.log(x, 2)] *)
Definition math_log2 (x : R) : result R :=
  if Rle_dec x 0 then raise (ValueError "math domain error")
  else ret (ln x / ln 2).

(** [a / b] on integers. *)
Definition int_truediv (a b : Z) : result R :=
  if Z.eqb b 0 then raise (ZeroDivisionError "division by zero")
  else ret (IZR a / IZR b).

(** [a / b] on floats. *)
Definition float_truediv (a b : R) : result R :=
  if Req_dec_T b 0 then raise (ZeroDivisionError "float division by zero")
  else ret (a / b).

(** [dict((k, v / vocabulary_size) for k, v in collection_word_counts.items())],
    the dictionary under construction being [acc]. *)
Fixpoint background_loop (vocabulary_size : Z) (items : counter)
    (acc : Dict.t (K := string) (V := R))
  : result (Dict.t (K := string) (V := R)) :=
  match items with
  | [] => ret acc
  | (k, v) :: rest =>
      p <- int_truediv v vocabulary_size ;;
      background_loop vocabulary_size rest (Dict.set String.eqb k p acc)
  end.

Definition word_model : Type := Dict.t (K := string) (V := R).

(** [for current_feature in unique_feature_ids] for one [word]; the state is
    [tfidf_feature] and [model_feature_norms].  Reading
    [feature_word_counter[current_feature]] leaves an empty counter behind in
    the [defaultdict], which nothing reads afterwards. *)
Fixpoint tfidf_features_loop (c : counts) (section_count : Z) (word : string)
    (unique_feature_ids : list Z)
    (tfidf_feature : Dict.t (K := Z) (V := word_model))
    (model_feature_norms : Dict.t (K := Z) (V := R))
  : result (Dict.t (K := Z) (V := word_model) * Dict.t (K := Z) (V := R)) :=
  match unique_feature_ids with
  | [] => ret (tfidf_feature, model_feature_norms)
  | current_feature :: rest =>
      a <- math_log2
             (IZR (1 + count word
                         (Dict.get_default Z.eqb [] current_feature
                            (feature_word_counter c)))) ;;
      q <- int_truediv section_count (count word (word_section_counter c)) ;;
      b <- math_log2 (1 + q) ;;
      let tfidf := a * b + 1 in
      tfidf_features_loop c section_count word rest
        (Dict.set Z.eqb current_feature
           (Dict.set String.eqb word tfidf
              (Dict.get_default Z.eqb [] current_feature tfidf_feature))
           tfidf_feature)
        (Dict.set Z.eqb current_feature
           (Dict.get_default Z.eqb 0 current_feature model_feature_norms + tfidf)
           model_feature_norms)
  end.

(** [for word in collection_word_counts.keys()] *)
Fixpoint tfidf_words_loop (c : counts) (section_count : Z)
    (words : list string) (unique_feature_ids : list Z)
    (tfidf_feature : Dict.t (K := Z) (V := word_model))
    (model_feature_norms : Dict.t (K := Z) (V := R))
  : result (Dict.t (K := Z) (V := word_model) * Dict.t (K := Z) (V := R)) :=
  match words with
  | [] => ret (tfidf_feature, model_feature_norms)
  | word :: rest =>
      st <- tfidf_features_loop c section_count word unique_feature_ids
              tfidf_feature model_feature_norms ;;
      tfidf_words_loop c section_count rest unique_feature_ids (fst st) (snd st)
  end.

(** [dict((k, v / norm) for k, v in items)], the dictionary under
    construction being [acc]. *)
Fixpoint normalize_items (norm : R) (items : word_model) (acc : word_model)
  : result word_model :=
  match items with
  | [] => ret acc
  | (k, v) :: rest =>
      p <- float_truediv v norm ;;
      normalize_items norm rest (Dict.set String.eqb k p acc)
  end.

(** [for index in model_feature_norms.keys()] *)
Fixpoint normalize_loop (indexes : list Z)
    (tfidf_feature : Dict.t (K := Z) (V := word_model))
    (model_feature_norms : Dict.t (K := Z) (V := R))
    (model_feature : Dict.t (K := Z) (V := word_model))
  : result (Dict.t (K := Z) (V := word_model)) :=
  match indexes with
  | [] => ret model_feature
  | index :: rest =>
      d <- normalize_items (Dict.get_default Z.eqb 0 index model_feature_norms)
             (Dict.get_default Z.eqb [] index tfidf_feature) [] ;;
      normalize_loop rest tfidf_feature model_feature_norms
        (Dict.set Z.eqb index d model_feature)
  end.

Record model_results : Type := mk_model_results {
  model_background : word_model;
  model_feature : Dict.t (K := Z) (V := word_model);
  doc_counts : Dict.t (K := Z) (V := counter)
}.

(** [sum(collection_word_counts.values())] *)
Definition sum_Z (l : list Z) : Z := fold_left Z.add l 0%Z.

(** [text_set] and [feature_set] are the rows of the two frames, in order;
    the frames have the columns the code reads. *)
Definition build_explicit_models (nlp : string -> list token)
    (text_set : list text_row) (feature_set : list FeatureCatalog.feature_row)
  : result model_results :=
  let unique_feature_ids :=
    unique (map FeatureCatalog.feature_id feature_set) in
  let c := count_sections nlp text_set feature_set in
  let vocabulary_size := sum_Z (Dict.values (collection_word_counts c)) in
  model_background <-
    background_loop vocabulary_size (collection_word_counts c) [] ;;
  let section_count := Z.of_nat (List.length (section_word_list c)) in
  st <- tfidf_words_loop c section_count (Dict.keys (collection_word_counts c))
          unique_feature_ids [] [] ;;
  model_feature <- normalize_loop (Dict.keys (snd st)) (fst st) (snd st) [] ;;
  ret (mk_model_results model_background model_feature (section_word_counts c)).

(** [model_feature[feature_id]] of the returned [defaultdict(dict)]. *)
Definition topic_model (r : model_results) (feature_id : Z) : word_model :=
  Dict.get_default Z.eqb [] feature_id (model_feature r).

(** *** Vocabulary used to state the properties *)

Definition log2 (x : R) : R := ln x / ln 2.

(** The sum of a list of reals. *)
Definition sum_R (l : list R) : R := fold_right Rplus 0 l.

(** The words of the collection, in order of first appearance. *)
Definition vocabulary (c : counts) : list string :=
  Dict.keys (collection_word_counts c).

(** The number of sections. *)
Definition total_sections (c : counts) : Z :=
  Z.of_nat (List.length (section_word_list c)).

(** The number of sections of feature [f] that contain [w]. *)
Definition feature_word_count (c : counts) (f : Z) (w : string) : Z :=
  count w (Dict.get_default Z.eqb [] f (feature_word_counter c)).

(** The number of sections that contain [w]. *)
Definition sections_containing (c : counts) (w : string) : Z :=
  count w (word_section_counter c).

(** The raw topic-model score of [w] for feature [f]. *)
Definition raw_score (c : counts) (f : Z) (w : string) : R :=
  log2 (1 + IZR (feature_word_count c f w))
  * log2 (1 + IZR (total_sections c) / IZR (sections_containing c w))
  + 1.

(** The sum of the raw scores of feature [f] over the vocabulary. *)
Definition raw_total (c : counts) (f : Z) : R :=
  sum_R (map (raw_score c f) (vocabulary c)).

(** A feature that co-occurs with no section: none of its terms is among the
    words of a section. *)
Definition never_found (nlp : string -> list token) (text_set : list text_row)
    (feature_set : list FeatureCatalog.feature_row) (f : Z) : Prop :=
  forall row row_f,
    In row text_set -> In row_f feature_set ->
    FeatureCatalog.feature_id row_f = f ->
    mem_str (FeatureCatalog.feature row_f)
      (section_words (nlp (section_text row))) = false.

(** A counter all of whose counts are at least one. *)
Definition positive (c : counter) : Prop :=
  Forall (fun v => (1 <= v)%Z) (Dict.values c).

(** What the loop over the sections keeps true of its counters. *)
Record counted (c : counts) : Prop := mk_counted {
  counted_collection : positive (collection_word_counts c);
  counted_sections : positive (word_section_counter c);
  counted_incl :
    forall w, In w (Dict.keys (collection_word_counts c)) ->
              In w (Dict.keys (word_section_counter c));
  counted_nodup : NoDup (Dict.keys (collection_word_counts c));
  counted_features : Forall positive (Dict.values (feature_word_counter c))
}.

(** A tokenizer for the examples: one token per character, blanks being
    punctuation. *)
Fixpoint letters (text : string) : list token :=
  match text with
  | EmptyString => []
  | String ch rest =>
      mk_token false (Str.isspace ch) (String ch EmptyString)
        (String ch EmptyString) :: letters rest
  end.

(** The words kept of a row of [text_set]. *)
Definition words_of (nlp : string -> list token) (row : text_row)
  : list string :=
  section_words (nlp (section_text row)).

(** Some term of feature [f] is among [words]. *)
Definition mentions_feature (feature_set : list FeatureCatalog.feature_row)
    (f : Z) (words : list string) : bool :=
  existsb
    (fun row_f =>
       Z.eqb (FeatureCatalog.feature_id row_f) f
       && mem_str (FeatureCatalog.feature row_f) words)
    feature_set.

(** The number of rows that satisfy [p]. *)
Definition rows_where (p : text_row -> bool) (rows : list text_row) : Z :=
  Z.of_nat (List.length (filter p rows)).

(** The frame [section_list] returned by [read_annotated_data], as the
    [text_set] of [build_explicit_models]: the two columns the latter reads. *)
Definition text_set_of (d : CorpusReader.annotated_data) : list text_row :=
  map (fun s => mk_text_row (CorpusReader.section_id s)
                  (CorpusReader.section_text s))
    (CorpusReader.section_list d).

(** The distinct strings of [ws], each at the place of its first
    occurrence. *)
Fixpoint first_appearances (ws : list string) : list string :=
  match ws with
  | [] => []
  | w :: rest =>
      w :: filter (fun x => negb (String.eqb x w)) (first_appearances rest)
  end.

End ModelBuilder.

(** * Properties *)

(** ** FeatureCatalog *)

Module FeatureCatalogFacts.

Import FeatureCatalog.

Lemma number_terms_app fi ti xs ys :
  number_terms fi ti (xs ++ ys)
  = number_terms fi ti xs ++ number_terms fi (ti + Z.of_nat (List.length xs)) ys.
Proof.
  revert ti; induction xs as [|x xs IH]; intros ti; simpl.
  - now rewrite Z.add_0_r.
  - rewrite IH. do 3 f_equal. lia.
Qed.

Lemma number_terms_length fi ti xs :
  List.length (number_terms fi ti xs) = List.length xs.
Proof. revert ti; induction xs; intros; simpl; auto. Qed.

Lemma number_terms_term_ids fi ti xs :
  map feature_term_id (number_terms fi ti xs) = zrange ti (List.length xs).
Proof. revert ti; induction xs; intros; simpl; f_equal; auto. Qed.

Lemma number_terms_features fi ti xs :
  map feature (number_terms fi ti xs) = xs.
Proof. revert ti; induction xs; intros; simpl; f_equal; auto. Qed.

Lemma number_terms_id fi ti xs r :
  In r (number_terms fi ti xs) -> feature_id r = fi.
Proof.
  revert ti; induction xs; intros ti H; simpl in H; [easy|].
  destruct H as [<-|H]; eauto.
Qed.

Lemma zrange_app a n m :
  zrange a (n + m) = zrange a n ++ zrange (a + Z.of_nat n) m.
Proof.
  revert a; induction n as [|n IH]; intros a; simpl.
  - now rewrite Z.add_0_r.
  - rewrite IH. do 3 f_equal. lia.
Qed.

Section Loops.

Variable py_str : pyobj -> string.

Lemma synonyms_loop_accepts parent fi syns : forall ti acc,
  forallb is_str syns = true ->
  synonyms_loop py_str parent fi syns ti acc
  = inr ((ti + Z.of_nat (List.length (strings_of syns)))%Z,
         acc ++ number_terms fi ti (strings_of syns)).
Proof.
  induction syns as [|o syns IH]; intros ti acc H; simpl in *.
  - now rewrite Z.add_0_r, app_nil_r.
  - apply andb_prop in H as [Ho Hs].
    destruct o; try discriminate. simpl.
    rewrite IH by assumption. rewrite <- app_assoc. simpl.
    do 2 f_equal. lia.
Qed.

Lemma synonyms_loop_rejects parent fi syns : forall ti acc,
  forallb is_str syns = false ->
  exists child,
    first_non_string syns = Some child
    /\ synonyms_loop py_str parent fi syns ti acc
       = inl (ValueError
                (py_str parent ++ ">" ++ py_str child ++ not_a_string_msg)).
Proof.
  induction syns as [|o syns IH]; intros ti acc H; simpl in *; [discriminate|].
  destruct o; simpl in *; eauto.
Qed.

Lemma features_loop_accepts fl : forall fi ti acc,
  forallb well_formed_entry fl = true ->
  features_loop py_str fl fi ti acc = inr (acc ++ catalog_rows fl fi ti).
Proof.
  induction fl as [|e fl IH]; intros fi ti acc H; simpl in *.
  - now rewrite app_nil_r.
  - apply andb_prop in H as [He Hfl].
    destruct e; try discriminate; simpl in *.
    + rewrite IH by assumption. now rewrite <- app_assoc.
    + rewrite synonyms_loop_accepts by assumption. simpl.
      rewrite IH by assumption. now rewrite <- app_assoc.
Qed.

Lemma features_loop_rejects pre bad post : forall fi ti acc,
  forallb well_formed_entry pre = true ->
  well_formed_entry bad = false ->
  features_loop py_str (pre ++ bad :: post) fi ti acc
  = inl (ValueError (rejection_message py_str bad)).
Proof.
  induction pre as [|e pre IH]; intros fi ti acc Hpre Hbad; simpl in *.
  - destruct bad; try discriminate; simpl in *; try reflexivity.
    destruct (synonyms_loop_rejects (PyList items) fi items ti acc Hbad)
      as (child & Hc & ->).
    now rewrite Hc.
  - apply andb_prop in Hpre as [He Hpre].
    destruct e; try discriminate; simpl in *.
    + now apply IH.
    + rewrite synonyms_loop_accepts by assumption. simpl. now apply IH.
Qed.

(** A list with a rejected entry splits at the first one. *)
Lemma first_rejected fl :
  forallb well_formed_entry fl = false ->
  exists pre bad post,
    fl = pre ++ bad :: post
    /\ forallb well_formed_entry pre = true
    /\ well_formed_entry bad = false.
Proof.
  induction fl as [|e fl IH]; simpl; [discriminate|].
  destruct (well_formed_entry e) eqn:He; simpl; intros H.
  - destruct (IH H) as (pre & bad & post & -> & Hpre & Hbad).
    exists (e :: pre), bad, post. simpl. now rewrite He.
  - now exists [], e, fl.
Qed.

Lemma format_feature_list_inr fl rows :
  format_feature_list py_str fl = inr rows ->
  forallb well_formed_entry fl = true /\ rows = catalog_rows fl 0 0.
Proof.
  unfold format_feature_list. intros H.
  destruct (forallb well_formed_entry fl) eqn:E.
  - rewrite features_loop_accepts in H by assumption. simpl in H.
    split; congruence.
  - destruct (first_rejected fl E) as (pre & bad & post & -> & Hpre & Hbad).
    rewrite features_loop_rejects in H by assumption. discriminate.
Qed.

End Loops.

(** *** The table as a function of the entries *)

Lemma catalog_rows_term_ids fl : forall fi ti,
  map feature_term_id (catalog_rows fl fi ti)
  = zrange ti (List.length (catalog_rows fl fi ti)).
Proof.
  induction fl as [|e fl IH]; intros fi ti; simpl; [reflexivity|].
  rewrite map_app, length_app, zrange_app, number_terms_term_ids, IH.
  now rewrite number_terms_length.
Qed.

Lemma catalog_rows_ids fl : forall fi ti r,
  In r (catalog_rows fl fi ti) ->
  (fi <= feature_id r < fi + Z.of_nat (List.length fl))%Z.
Proof.
  induction fl as [|e fl IH]; intros fi ti r H; simpl in H; [easy|].
  apply in_app_or in H as [H|H].
  - apply number_terms_id in H. simpl List.length. lia.
  - apply IH in H. simpl List.length. lia.
Qed.

Lemma rows_with_id_number_terms fi ti xs :
  rows_with_id fi (number_terms fi ti xs) = number_terms fi ti xs.
Proof.
  unfold rows_with_id. revert ti; induction xs; intros ti; simpl; [reflexivity|].
  rewrite Z.eqb_refl. f_equal. apply IHxs.
Qed.

Lemma rows_with_id_none i rows :
  (forall r, In r rows -> feature_id r <> i) -> rows_with_id i rows = [].
Proof.
  unfold rows_with_id. induction rows as [|r rows IH]; intros H; simpl; [reflexivity|].
  destruct (Z.eqb_spec (feature_id r) i) as [E|_].
  - exfalso. apply (H r); simpl; auto.
  - apply IH. intros r' Hr'. apply H. simpl; auto.
Qed.

Lemma rows_with_id_app i xs ys :
  rows_with_id i (xs ++ ys) = rows_with_id i xs ++ rows_with_id i ys.
Proof. apply filter_app. Qed.

(** The rows that carry the id of the entry at position [i] are the terms of
    that entry, in order. *)
Lemma catalog_rows_entry fl : forall fi ti i e,
  nth_error fl i = Some e ->
  map feature (rows_with_id (fi + Z.of_nat i) (catalog_rows fl fi ti))
  = entry_terms e.
Proof.
  induction fl as [|e0 fl IH]; intros fi ti i e H.
  - destruct i; discriminate.
  - simpl. rewrite rows_with_id_app, map_app. destruct i as [|i]; simpl in H.
    + injection H as ->. rewrite Z.add_0_r, rows_with_id_number_terms.
      rewrite number_terms_features.
      rewrite rows_with_id_none; [now rewrite app_nil_r|].
      intros r Hr. apply catalog_rows_ids in Hr. lia.
    + rewrite rows_with_id_none.
      * cbn [map app].
        replace (fi + Z.of_nat (S i))%Z with (fi + 1 + Z.of_nat i)%Z by lia.
        now apply IH.
      * intros r Hr. apply number_terms_id in Hr. lia.
Qed.

Lemma catalog_rows_position fl i e :
  nth_error fl i = Some e ->
  map feature (rows_with_id (Z.of_nat i) (catalog_rows fl 0 0)) = entry_terms e.
Proof. intros H. exact (catalog_rows_entry fl 0 0 i e H). Qed.

Lemma first_non_string_some items child :
  first_non_string items = Some child ->
  forallb is_str items = false /\ is_str child = false.
Proof.
  induction items as [|o items IH]; simpl; [discriminate|].
  destruct o; simpl; intros H; try (injection H as <-; now split).
  now apply IH.
Qed.

Lemma entry_terms_nonempty e :
  well_formed_entry e = true -> is_empty_list e = false -> entry_terms e <> [].
Proof.
  destruct e; simpl; try discriminate.
  destruct items as [|o items]; [discriminate|].
  simpl. destruct o; simpl; discriminate.
Qed.

Lemma strings_of_all_str items :
  forallb is_str items = true -> map PyStr (strings_of items) = items.
Proof.
  induction items as [|o items IH]; simpl; [reflexivity|].
  intros H. apply andb_prop in H as [Ho Hs].
  destruct o; try discriminate. simpl. now rewrite IH.
Qed.

Lemma well_formed_nth fl i e :
  forallb well_formed_entry fl = true ->
  nth_error fl i = Some e -> well_formed_entry e = true.
Proof.
  intros H Hn. rewrite forallb_forall in H. apply H.
  eapply nth_error_In; eauto.
Qed.

(** C7. [format_feature_list] gives the terms consecutive term ids from 0, a
    top-level string the id of its position and nobody else in it, and the
    elements of a nested list, all of them, the id of the position of the
    list; on [["a", ["b", "c"]]] the feature ids are a:0, b:1, c:1 and the
    term ids a:0, b:1, c:2. *)
Theorem format_feature_list_ids (py_str : pyobj -> string) :
  format_feature_list py_str [PyStr "a"; PyList [PyStr "b"; PyStr "c"]]
  = inr [mk_feature_row 0 0 "a"; mk_feature_row 1 1 "b"; mk_feature_row 2 1 "c"]
  /\ forall fl rows,
       format_feature_list py_str fl = inr rows ->
       map feature_term_id rows = zrange 0 (List.length rows)
       /\ (forall i s,
             nth_error fl i = Some (PyStr s) ->
             map feature (rows_with_id (Z.of_nat i) rows) = [s])
       /\ (forall i items,
             nth_error fl i = Some (PyList items) ->
             map PyStr (map feature (rows_with_id (Z.of_nat i) rows)) = items)
       /\ (forall r, In r rows ->
             (0 <= feature_id r < Z.of_nat (List.length fl))%Z).
Proof.
  split; [reflexivity|].
  intros fl rows H.
  apply format_feature_list_inr in H as [Hwf ->].
  repeat split.
  - apply catalog_rows_term_ids.
  - intros i s Hn.
    now rewrite (catalog_rows_position fl i _ Hn).
  - intros i items Hn.
    rewrite (catalog_rows_position fl i _ Hn). simpl.
    apply strings_of_all_str.
    exact (well_formed_nth fl i _ Hwf Hn).
  - apply catalog_rows_ids in H. lia.
  - apply catalog_rows_ids in H. lia.
Qed.

Lemma format_feature_list_ids_witness :
  map feature_term_id
    [mk_feature_row 0 0 "a"; mk_feature_row 1 1 "b"; mk_feature_row 2 1 "c"]
  = zrange 0 3
  /\ map feature
       (rows_with_id 1
          [mk_feature_row 0 0 "a"; mk_feature_row 1 1 "b";
           mk_feature_row 2 1 "c"])
     = ["b"; "c"].
Proof.
  pose proof (proj2 (format_feature_list_ids show)
                [PyStr "a"; PyList [PyStr "b"; PyStr "c"]]
                [mk_feature_row 0 0 "a"; mk_feature_row 1 1 "b";
                 mk_feature_row 2 1 "c"] eq_refl) as (Hids & _ & Hlist & _).
  split; [exact Hids|].
  specialize (Hlist 1%nat [PyStr "b"; PyStr "c"] eq_refl).
  simpl in Hlist |- *. reflexivity.
Defined.

(** C8, as stated, fails: an empty nested list uses up a feature id that no
    term carries. *)
Lemma format_feature_list_gap :
  format_feature_list show [PyStr "a"; PyList []; PyStr "b"]
  = inr [mk_feature_row 0 0 "a"; mk_feature_row 1 2 "b"]
  /\ ~ (forall k : Z,
          (0 <= k <= 2)%Z ->
          exists r,
            In r [mk_feature_row 0 0 "a"; mk_feature_row 1 2 "b"]
            /\ feature_id r = k).
Proof.
  split; [reflexivity|].
  intros H. destruct (H 1%Z ltac:(lia)) as (r & Hr & Hk).
  simpl in Hr. destruct Hr as [<-|[<-|[]]]; discriminate.
Qed.

(** C8, amended. When [format_feature_list] succeeds on a list none of whose
    entries is the empty list, every integer from 0 up to a feature id of the
    table is the feature id of some row. *)
Theorem format_feature_list_dense (py_str : pyobj -> string) fl rows :
  format_feature_list py_str fl = inr rows ->
  existsb is_empty_list fl = false ->
  forall r k,
    In r rows -> (0 <= k <= feature_id r)%Z ->
    exists r', In r' rows /\ feature_id r' = k.
Proof.
  intros H Hne r k Hr Hk.
  apply format_feature_list_inr in H as [Hwf ->].
  pose proof (catalog_rows_ids fl 0 0 r Hr) as Hb.
  destruct (nth_error fl (Z.to_nat k)) as [e|] eqn:Hn.
  - pose proof (catalog_rows_position fl _ e Hn) as He.
    rewrite Z2Nat.id in He by lia.
    assert (Hwe : well_formed_entry e = true)
      by exact (well_formed_nth fl _ e Hwf Hn).
    assert (Hee : is_empty_list e = false).
    { destruct (is_empty_list e) eqn:E; [|reflexivity].
      assert (existsb is_empty_list fl = true); [|congruence].
      apply existsb_exists. exists e. split; [|assumption].
      eapply nth_error_In; eauto. }
    pose proof (entry_terms_nonempty e Hwe Hee) as Hnn.
    destruct (rows_with_id k (catalog_rows fl 0 0)) as [|r' rest] eqn:Hf.
    + simpl in He. congruence.
    + exists r'.
      assert (Hin : In r' (rows_with_id k (catalog_rows fl 0 0)))
        by (rewrite Hf; simpl; auto).
      unfold rows_with_id in Hin. apply filter_In in Hin as [Hin Hid].
      split; [assumption|]. now apply Z.eqb_eq.
  - apply nth_error_None in Hn. lia.
Qed.

Lemma format_feature_list_dense_witness :
  exists r',
    In r' [mk_feature_row 0 0 "a"; mk_feature_row 1 1 "b";
           mk_feature_row 2 1 "c"]
    /\ feature_id r' = 1%Z.
Proof.
  apply (format_feature_list_dense show
           [PyStr "a"; PyList [PyStr "b"; PyStr "c"]]
           [mk_feature_row 0 0 "a"; mk_feature_row 1 1 "b";
            mk_feature_row 2 1 "c"]
           eq_refl eq_refl (mk_feature_row 2 1 "c") 1%Z).
  - simpl; auto.
  - simpl; lia.
Defined.

(** C9, as stated, fails: a tuple of strings is a sequence of strings, and
    the call raises on it; the message is the entry followed by the fixed
    text and names no parent. *)
Lemma tuple_of_strings_rejected :
  format_feature_list show [PyStr "a"; PyTuple [PyStr "b"; PyStr "c"]]
  = inl (ValueError "(b, c) is not a string or a list of strings")
  /\ (forall py_str,
        format_feature_list py_str [PyStr "a"; PyTuple [PyStr "b"; PyStr "c"]]
        = inl (ValueError
                 (py_str (PyTuple [PyStr "b"; PyStr "c"])
                    ++ not_a_string_msg))).
Proof. split; [reflexivity|]. intros py_str. reflexivity. Qed.

(** C9, amended. [format_feature_list] raises [ValueError] exactly when some
    entry is neither a string nor a list of strings; any other sequence, a
    tuple of strings too, is rejected.  The exception is raised at the first
    such entry, whatever follows it: for an entry that is no list its message
    is the entry followed by the fixed text (no parent is named), for a list
    it is the list, [>], the first element that is not a string, and the
    fixed text.  A call returns either the exception or the table, never
    both. *)
Theorem format_feature_list_rejects (py_str : pyobj -> string) :
  (forall fl,
      (exists e, format_feature_list py_str fl = inl e)
      <-> forallb well_formed_entry fl = false)
  /\ (forall pre bad post,
        forallb well_formed_entry pre = true ->
        is_str bad = false ->
        (forall items, bad <> PyList items) ->
        format_feature_list py_str (pre ++ bad :: post)
        = inl (ValueError (py_str bad ++ not_a_string_msg)))
  /\ (forall pre items child post,
        forallb well_formed_entry pre = true ->
        first_non_string items = Some child ->
        format_feature_list py_str (pre ++ PyList items :: post)
        = inl (ValueError
                 (py_str (PyList items) ++ ">" ++ py_str child
                    ++ not_a_string_msg)))
  /\ (forall fl,
        (exists e, format_feature_list py_str fl = inl e)
        \/ (exists rows, format_feature_list py_str fl = inr rows))
  /\ (forall pre items post,
        forallb well_formed_entry pre = true ->
        format_feature_list py_str (pre ++ PyTuple items :: post)
        = inl (ValueError (py_str (PyTuple items) ++ not_a_string_msg))).
Proof.
  split; [|split; [|split; [|split]]].
  - intros fl. split.
    + intros [e He]. destruct (forallb well_formed_entry fl) eqn:E; [|reflexivity].
      unfold format_feature_list in He.
      rewrite features_loop_accepts in He by assumption. discriminate.
    + intros E.
      destruct (first_rejected fl E) as (pre & bad & post & -> & Hpre & Hbad).
      eexists. unfold format_feature_list.
      now apply features_loop_rejects.
  - intros pre bad post Hpre Hs Hl. unfold format_feature_list.
    rewrite features_loop_rejects; try assumption.
    + destruct bad; try reflexivity. now destruct (Hl items).
    + destruct bad; try reflexivity; try discriminate. now destruct (Hl items).
  - intros pre items child post Hpre Hc. unfold format_feature_list.
    rewrite features_loop_rejects; try assumption.
    + simpl. now rewrite Hc.
    + simpl. now apply first_non_string_some in Hc.
  - intros fl. destruct (format_feature_list py_str fl) as [e|rows]; eauto.
  - intros pre items post Hpre. unfold format_feature_list.
    now rewrite features_loop_rejects.
Qed.

Lemma format_feature_list_rejects_witness :
  format_feature_list show [PyStr "a"; PyInt 3; PyStr "b"]
  = inl (ValueError "<int> is not a string or a list of strings")
  /\ format_feature_list show [PyStr "a"; PyList [PyStr "b"; PyNone]]
     = inl (ValueError "[b, None]>None is not a string or a list of strings").
Proof.
  destruct (format_feature_list_rejects show)
    as (_ & Hentry & Hnested & _ & _).
  split.
  - apply (Hentry [PyStr "a"] (PyInt 3) [PyStr "b"]).
    + reflexivity.
    + reflexivity.
    + intros items; discriminate.
  - apply (Hnested [PyStr "a"] [PyStr "b"; PyNone] PyNone []); reflexivity.
Defined.

End FeatureCatalogFacts.

(** ** Strings *)

Module StrFacts.

Import Str.

Lemma startswith_find p s : startswith p s = true -> find p s = Some O.
Proof. intros H. destruct s; cbn [find]; now rewrite H. Qed.

Lemma find_empty sep : sep <> EmptyString -> find sep EmptyString = None.
Proof. destruct sep; [congruence|reflexivity]. Qed.

Lemma prefix_length p s :
  String.prefix p s = true -> (String.length p <= String.length s)%nat.
Proof.
  revert s; induction p as [|c p IH]; intros s H; simpl; [lia|].
  destruct s as [|d s]; simpl in H; [discriminate|].
  destruct (Ascii.ascii_dec c d); [|discriminate].
  apply IH in H. simpl. lia.
Qed.

Lemma find_bound sep s i :
  find sep s = Some i -> (i + String.length sep <= String.length s)%nat.
Proof.
  revert i; induction s as [|c s IH]; intros i; cbn [find].
  - destruct (startswith sep EmptyString) eqn:E; [|discriminate].
    intros [= <-]. apply prefix_length in E. exact E.
  - destruct (startswith sep (String c s)) eqn:E.
    + intros [= <-]. apply prefix_length in E. exact E.
    + destruct (find sep s) as [j|]; [|discriminate].
      intros [= <-]. specialize (IH j eq_refl).
      cbn [String.length]. lia.
Qed.

Lemma drop_length n s : String.length (drop n s) = (String.length s - n)%nat.
Proof.
  revert s; induction n as [|n IH]; intros s; simpl; [lia|].
  destruct s; simpl; auto.
Qed.

Lemma length_sep sep : sep <> EmptyString -> String.length sep <> O.
Proof. destruct sep; [congruence|discriminate]. Qed.

Lemma length_zero s : String.length s = O -> s = EmptyString.
Proof. destruct s; [reflexivity|discriminate]. Qed.

(** The fuel given by [split] is enough: more of it changes nothing. *)
Lemma split_fuel_enough sep : sep <> EmptyString ->
  forall f1 s f2,
    (String.length s <= f1)%nat -> (String.length s <= f2)%nat ->
    split_fuel f1 sep s = split_fuel f2 sep s.
Proof.
  intros Hsep. induction f1 as [|f1 IH]; intros s f2 H1 H2.
  - assert (s = EmptyString) as -> by (apply length_zero; lia).
    destruct f2; cbn [split_fuel]; [reflexivity|]. now rewrite find_empty.
  - destruct f2 as [|f2].
    + assert (s = EmptyString) as -> by (apply length_zero; lia).
      cbn [split_fuel]. now rewrite find_empty.
    + cbn [split_fuel]. destruct (find sep s) as [i|] eqn:E; [|reflexivity].
      f_equal. pose proof (find_bound _ _ _ E) as Hb.
      pose proof (length_sep sep Hsep).
      apply IH; rewrite drop_length; lia.
Qed.

(** [split] cuts at the leftmost separator and goes on with the rest. *)
Lemma split_unfold sep s : sep <> EmptyString ->
  split sep s
  = match find sep s with
    | None => [s]
    | Some i => take i s :: split sep (drop (i + String.length sep) s)
    end.
Proof.
  intros Hsep. unfold split.
  destruct (String.length s) as [|n] eqn:El.
  - apply length_zero in El as ->. cbn [split_fuel]. now rewrite find_empty.
  - cbn [split_fuel]. destruct (find sep s) as [i|] eqn:E; [|reflexivity].
    f_equal. pose proof (find_bound _ _ _ E) as Hb.
    pose proof (length_sep sep Hsep).
    apply split_fuel_enough; try assumption; rewrite ?drop_length; lia.
Qed.

Lemma split_cons sep s : exists h t, split sep s = h :: t.
Proof.
  unfold split. destruct (String.length s); cbn [split_fuel]; eauto.
  destruct (find sep s); eauto.
Qed.

Lemma index_split_0 sep s : exists h, index (split sep s) 0 = inr h.
Proof. destruct (split_cons sep s) as (h & t & ->). now exists h. Qed.

Lemma split_without sep s : sep <> EmptyString ->
  find sep s = None -> split sep s = [s].
Proof. intros Hsep H. rewrite split_unfold by assumption. now rewrite H. Qed.

End StrFacts.

(** ** CorpusReader *)

Module CorpusReaderFacts.

Import CorpusReader.

Lemma contains_find sep s :
  Str.contains sep s = true -> exists i, Str.find sep s = Some i.
Proof. unfold Str.contains. destruct (Str.find sep s); [eauto|discriminate]. Qed.

Lemma contains_false_find sep s :
  Str.contains sep s = false -> Str.find sep s = None.
Proof. unfold Str.contains. destruct (Str.find sep s); [discriminate|auto]. Qed.

(** [s.split(sep)[1]] when [sep] occurs in [s]. *)
Lemma index_split_1 sep s : sep <> EmptyString ->
  Str.contains sep s = true ->
  Str.index (Str.split sep s) 1 = inr (up_to_next sep (after_first sep s)).
Proof.
  intros Hsep H. apply contains_find in H as [i Hi].
  rewrite StrFacts.split_unfold by assumption.
  unfold after_first. rewrite Hi.
  rewrite StrFacts.split_unfold by assumption.
  unfold up_to_next, Str.index.
  now destruct (Str.find sep (Str.drop (i + String.length sep) s)).
Qed.

(** [s.split(sep)[1]] when [sep] does not occur in [s]. *)
Lemma index_split_1_missing sep s : sep <> EmptyString ->
  Str.contains sep s = false ->
  Str.index (Str.split sep s) 1 = inl (IndexError "list index out of range").
Proof.
  intros Hsep H. apply contains_false_find in H.
  now rewrite StrFacts.split_without.
Qed.

Lemma startswith_contains p s :
  Str.startswith p s = true -> Str.contains p s = true.
Proof. intros H. unfold Str.contains. now rewrite StrFacts.startswith_find. Qed.

Lemma classify_title doc line :
  is_title_line line = true ->
  classify_line doc line = inr ((doc + 1)%Z, true, line_text line).
Proof.
  intros H. unfold classify_line, line_text, title_marker. rewrite H.
  unfold is_title_line in H.
  destruct (Str.contains "[t]" line) eqn:Et.
  - rewrite index_split_1 by (assumption || discriminate). reflexivity.
  - simpl in H. rewrite H.
    rewrite index_split_1
      by (discriminate || now apply startswith_contains).
    reflexivity.
Qed.

Lemma classify_body doc line :
  is_title_line line = false ->
  Str.contains "##" line = true ->
  classify_line doc line = inr (doc, false, line_text line).
Proof.
  intros H Hc. unfold classify_line, line_text. rewrite H.
  unfold is_title_line in H. apply orb_false_elim in H as [-> ->].
  rewrite index_split_1 by (assumption || discriminate). reflexivity.
Qed.

Lemma classify_malformed doc line :
  is_title_line line = false ->
  Str.contains "##" line = false ->
  classify_line doc line = inl (IndexError "list index out of range").
Proof.
  intros H Hc. unfold classify_line.
  unfold is_title_line in H. apply orb_false_elim in H as [-> ->].
  rewrite index_split_1_missing by (assumption || discriminate). reflexivity.
Qed.

(** A title line never raises and leaves the annotations alone. *)
Lemma process_line_title st line :
  is_title_line line = true ->
  process_line st line
  = inr (mk_state (st_doc_id st + 1) (st_section_id st + 1)
           (st_section_list st
              ++ [section_of (st_doc_id st) (st_section_id st) line])
           (st_feature_section_mapping st) (st_feature_list st)).
Proof.
  intros H. unfold process_line. rewrite classify_title by assumption.
  cbn [bind fst snd].
  destruct (StrFacts.index_split_0 "##" line) as [a ->]. cbn [bind].
  destruct (StrFacts.index_split_0 "," a) as [b ->]. cbn [bind negb andb].
  unfold section_of. now rewrite H.
Qed.

Lemma process_line_malformed st line :
  is_title_line line = false ->
  Str.contains "##" line = false ->
  process_line st line = inl (IndexError "list index out of range").
Proof.
  intros H Hc. unfold process_line.
  now rewrite classify_malformed.
Qed.

(** What a line that does not raise does to the state. *)
Lemma process_line_inr st line st' :
  process_line st line = inr st' ->
  st_doc_id st'
  = (if is_title_line line then st_doc_id st + 1 else st_doc_id st)%Z
  /\ st_section_id st' = (st_section_id st + 1)%Z
  /\ st_section_list st'
     = st_section_list st
         ++ [section_of (st_doc_id st) (st_section_id st) line].
Proof.
  destruct (is_title_line line) eqn:Ht.
  - rewrite process_line_title by assumption. intros [= <-]. now simpl.
  - destruct (Str.contains "##" line) eqn:Hc.
    + unfold process_line. rewrite classify_body by assumption.
      cbn [bind fst snd].
      destruct (Str.index (Str.split "##" line) 0); [discriminate|].
      cbn [bind].
      destruct (Str.index (Str.split "," s) 0); [discriminate|].
      cbn [bind].
      match goal with
      | |- bind ?m _ = _ -> _ => destruct m; [discriminate|]
      end.
      cbn [bind]. intros [= <-]. unfold section_of. rewrite Ht. now simpl.
    + rewrite process_line_malformed by assumption. discriminate.
Qed.

Lemma count_titles_cons line lines :
  count_titles (line :: lines)
  = ((if is_title_line line then 1 else 0) + count_titles lines)%Z.
Proof.
  unfold count_titles. simpl.
  destruct (is_title_line line); simpl List.length; lia.
Qed.

(** The loop, when it returns, has gone through a prefix of the lines. *)
Lemma lines_loop_inr nlines lines : forall st st',
  lines_loop nlines st lines = inr st' ->
  let k :=
    match nlines with
    | None => List.length lines
    | Some n =>
        Nat.min (List.length lines)
          (Z.to_nat (Z.max 1 (n - st_section_id st)))
    end in
  st_section_list st'
  = st_section_list st
      ++ sections_of (st_doc_id st) (st_section_id st) (firstn k lines)
  /\ st_section_id st' = (st_section_id st + Z.of_nat k)%Z
  /\ st_doc_id st' = (st_doc_id st + count_titles (firstn k lines))%Z.
Proof.
  induction lines as [|line rest IH]; intros st st' H.
  - simpl in H. injection H as <-.
    assert (Hk : match nlines with
                 | None => @List.length string []
                 | Some n => Nat.min (@List.length string [])
                               (Z.to_nat (Z.max 1 (n - st_section_id st)))
                 end = O) by (destruct nlines; reflexivity).
    cbv zeta. rewrite Hk. simpl. unfold count_titles. simpl.
    rewrite app_nil_r. repeat split; lia.
  - cbn [lines_loop] in H.
    destruct (process_line st line) as [e|st1] eqn:Hp; [discriminate|].
    cbn [bind] in H.
    apply process_line_inr in Hp as (Hd & Hs & Hl).
    assert (Hstop : forall k, k = 1%nat ->
              st' = st1 ->
              st_section_list st'
              = st_section_list st
                  ++ sections_of (st_doc_id st) (st_section_id st)
                       (firstn k (line :: rest))
              /\ st_section_id st' = (st_section_id st + Z.of_nat k)%Z
              /\ st_doc_id st'
                 = (st_doc_id st + count_titles (firstn k (line :: rest)))%Z).
    { intros k -> ->. cbn [firstn sections_of].
      rewrite count_titles_cons. unfold count_titles at 1. simpl.
      rewrite Hl, Hs, Hd. repeat split; destruct (is_title_line line); lia. }
    assert (Hgo : forall k k', k = S k' ->
              st_section_list st'
              = st_section_list st1
                  ++ sections_of (st_doc_id st1) (st_section_id st1)
                       (firstn k' rest) ->
              st_section_id st' = (st_section_id st1 + Z.of_nat k')%Z ->
              st_doc_id st' = (st_doc_id st1 + count_titles (firstn k' rest))%Z ->
              st_section_list st'
              = st_section_list st
                  ++ sections_of (st_doc_id st) (st_section_id st)
                       (firstn k (line :: rest))
              /\ st_section_id st' = (st_section_id st + Z.of_nat k)%Z
              /\ st_doc_id st'
                 = (st_doc_id st + count_titles (firstn k (line :: rest)))%Z).
    { intros k k' -> H1 H2 H3. cbn [firstn sections_of].
      rewrite count_titles_cons, H1, H2, H3, Hl, Hs, Hd, <- app_assoc.
      repeat split; destruct (is_title_line line); lia. }
    destruct nlines as [n|].
    + destruct (Z.geb_spec (st_section_id st1) n) as [Hge|Hlt].
      * injection H as H. apply Hstop; [|congruence].
        cbn [List.length]. lia.
      * specialize (IH st1 st' H). cbv zeta in IH.
        destruct IH as (H1 & H2 & H3).
        eapply Hgo; eauto. cbn [List.length]. lia.
    + specialize (IH st1 st' H). cbv zeta in IH.
      destruct IH as (H1 & H2 & H3).
      eapply Hgo; eauto. reflexivity.
Qed.

Lemma sections_of_length doc sid lines :
  List.length (sections_of doc sid lines) = List.length lines.
Proof. revert doc sid; induction lines; intros; simpl; auto. Qed.

Lemma sections_of_ids lines : forall doc sid,
  map section_id (sections_of doc sid lines) = zrange sid (List.length lines).
Proof. induction lines; intros; simpl; f_equal; auto. Qed.

Lemma sections_of_nth lines : forall doc sid i line,
  nth_error lines i = Some line ->
  nth_error (sections_of doc sid lines) i
  = Some (section_of (doc + count_titles (firstn i lines))
            (sid + Z.of_nat i) line).
Proof.
  induction lines as [|l lines IH]; intros doc sid i line H.
  - destruct i; discriminate.
  - destruct i as [|i]; simpl in H.
    + injection H as ->. simpl. unfold count_titles. simpl.
      now rewrite !Z.add_0_r.
    + cbn [sections_of nth_error firstn]. rewrite (IH _ _ _ _ H).
      rewrite count_titles_cons. do 2 f_equal.
      * destruct (is_title_line l); lia.
      * lia.
Qed.

Lemma zrange_lower n : forall a x, In x (zrange a n) -> (a <= x)%Z.
Proof.
  induction n as [|n IH]; intros a x H; simpl in H; [easy|].
  destruct H as [<-|H]; [lia|]. apply IH in H. lia.
Qed.

Lemma zrange_increasing n : forall a, StronglySorted Z.lt (zrange a n).
Proof.
  induction n as [|n IH]; intros a; simpl; constructor.
  - apply IH.
  - apply Forall_forall. intros x Hx. apply zrange_lower in Hx. lia.
Qed.

Lemma lines_read_le nlines lines :
  (lines_read nlines lines <= List.length lines)%nat.
Proof. unfold lines_read. destruct nlines; lia. Qed.

(** The sections returned are those of the lines read. *)
Lemma read_annotated_data_inr lines nlines r :
  read_annotated_data lines nlines = inr r ->
  section_list r
  = sections_of (-1) 0 (firstn (lines_read nlines lines) lines).
Proof.
  unfold read_annotated_data. intros H.
  destruct (lines_loop nlines initial_state lines) as [e|st] eqn:E;
    [discriminate|].
  cbn [bind] in H. injection H as <-. cbn [section_list].
  apply lines_loop_inr in E. cbv zeta in E. destruct E as (E & _ & _).
  rewrite E. cbn [initial_state st_section_list st_doc_id st_section_id app].
  unfold lines_read. destruct nlines; [|reflexivity].
  now rewrite Z.sub_0_r.
Qed.

Lemma read_annotated_data_length lines nlines r :
  read_annotated_data lines nlines = inr r ->
  List.length (section_list r) = lines_read nlines lines.
Proof.
  intros H. rewrite (read_annotated_data_inr _ _ _ H).
  rewrite sections_of_length, length_firstn.
  pose proof (lines_read_le nlines lines). lia.
Qed.

(** C4. The section ids of the returned sections are [0, 1, ...], strictly
    increasing, one per line read, and [nlines >= 1] bounds their number;
    with [nlines = 0] a file of one line still yields one section. *)
Theorem read_annotated_data_section_ids :
  (forall lines nlines r,
      read_annotated_data lines nlines = inr r ->
      map section_id (section_list r)
      = zrange 0 (List.length (section_list r))
      /\ StronglySorted Z.lt (map section_id (section_list r))
      /\ List.length (section_list r) = lines_read nlines lines)
  /\ (forall lines n r,
        read_annotated_data lines (Some n) = inr r ->
        (1 <= n)%Z ->
        (Z.of_nat (List.length (section_list r)) <= n)%Z)
  /\ read_annotated_data ["[t] a"] (Some 0%Z)
     = inr (mk_annotated_data [mk_section_row 0 0 "a" true] [] []).
Proof.
  split; [|split].
  - intros lines nlines r H.
    assert (Hids : map section_id (section_list r)
                   = zrange 0 (List.length (section_list r))).
    { rewrite (read_annotated_data_inr _ _ _ H).
      now rewrite sections_of_ids, sections_of_length. }
    split; [assumption|]. split.
    + rewrite Hids. apply zrange_increasing.
    + now apply read_annotated_data_length.
  - intros lines n r H Hn.
    rewrite (read_annotated_data_length _ _ _ H). unfold lines_read. lia.
  - reflexivity.
Qed.

Lemma read_annotated_data_section_ids_witness :
  map section_id [mk_section_row 0 0 "a" true; mk_section_row 0 1 "b" false]
  = zrange 0 2.
Proof.
  pose proof (proj1 read_annotated_data_section_ids
                ["[t] a"; "##b"; "##c"] (Some 2%Z)
                (mk_annotated_data
                   [mk_section_row 0 0 "a" true; mk_section_row 0 1 "b" false]
                   [] [])
                eq_refl) as (H & _ & _).
  exact H.
Defined.

(** C5, as stated, fails: the text of a title line stops at the second
    marker, it is not all that follows the first one. *)
Lemma title_text_stops_at_next_marker :
  read_annotated_data ["[t]a[t]b"] None
  = inr (mk_annotated_data [mk_section_row 0 0 "a" true] [] [])
  /\ Str.lower (Str.strip (after_first "[t]" "[t]a[t]b")) = "a[t]b"
  /\ "a" <> "a[t]b".
Proof. repeat split. discriminate. Qed.

(** C5, amended. The section of a line is a title exactly when the line
    contains [[t]] or starts with [*]; its [doc_id] is the number of such
    lines up to and including it, minus one, so that [doc_id] goes up by one
    on each of them and on no other line; and the text of a title is what
    stands between its first marker and the next occurrence of that marker
    (the end of the line when there is none), trimmed and lowercased. *)
Theorem read_annotated_data_titles lines nlines r i line :
  read_annotated_data lines nlines = inr r ->
  nth_error lines i = Some line ->
  (i < List.length (section_list r))%nat ->
  exists s,
    nth_error (section_list r) i = Some s
    /\ title s = is_title_line line
    /\ doc_id s = (count_titles (firstn (S i) lines) - 1)%Z
    /\ (is_title_line line = true ->
        section_text s
        = Str.lower
            (Str.strip
               (up_to_next (title_marker line)
                  (after_first (title_marker line) line)))).
Proof.
  intros H Hn Hi.
  pose proof (read_annotated_data_length _ _ _ H) as Hlen.
  rewrite (read_annotated_data_inr _ _ _ H).
  set (k := lines_read nlines lines) in *.
  assert (Hk : nth_error (firstn k lines) i = Some line).
  { rewrite nth_error_firstn.
    destruct (Nat.ltb_spec i k); [assumption|lia]. }
  rewrite (sections_of_nth _ _ _ _ _ Hk).
  eexists. split; [reflexivity|].
  assert (Hf : firstn i (firstn k lines) = firstn i lines).
  { rewrite firstn_firstn. f_equal. lia. }
  rewrite Hf.
  assert (Hs : firstn (S i) lines = firstn i lines ++ [line]).
  { clear -Hn. revert i Hn. induction lines as [|l lines IH]; intros i Hn.
    - destruct i; discriminate.
    - destruct i as [|i]; simpl in Hn.
      + now injection Hn as ->.
      + cbn [firstn app]. f_equal. now apply IH. }
  unfold section_of. cbn [title doc_id section_text].
  split; [reflexivity|]. split.
  - rewrite Hs. unfold count_titles. rewrite filter_app, length_app.
    cbn [filter]. destruct (is_title_line line); cbn [List.length]; lia.
  - intros Ht. unfold line_text. now rewrite Ht.
Qed.

Lemma read_annotated_data_titles_witness :
  exists s,
    nth_error [mk_section_row 0 0 "a" true; mk_section_row 0 1 "b" false;
               mk_section_row 1 2 "c" true] 2
    = Some s
    /\ title s = true /\ doc_id s = 1%Z.
Proof.
  assert (Hi : (2 < 3)%nat) by lia.
  destruct (read_annotated_data_titles
              ["[t] A "; "x##b"; "* C*d"] None
              (mk_annotated_data
                 [mk_section_row 0 0 "a" true; mk_section_row 0 1 "b" false;
                  mk_section_row 1 2 "c" true]
                 [mk_mapping_row 0 1 "x" true] [("x", 1%Z)])
              2 "* C*d" eq_refl eq_refl Hi)
    as (s & Hs & Ht & Hd & _).
  exists s. repeat split; assumption.
Defined.

(** Lines that neither raise nor reach [nlines] are gone through in turn. *)
Lemma lines_loop_prefix nlines pre : forall st st1 rest,
  lines_loop None st pre = inr st1 ->
  (forall n, nlines = Some n ->
             (st_section_id st + Z.of_nat (List.length pre) < n)%Z) ->
  lines_loop nlines st (pre ++ rest) = lines_loop nlines st1 rest.
Proof.
  induction pre as [|l pre IH]; intros st st1 rest H Hn.
  - simpl in H. now injection H as ->.
  - cbn [lines_loop app] in *.
    destruct (process_line st l) as [e|st2] eqn:Hp; [discriminate|].
    cbn [bind] in *.
    pose proof (process_line_inr _ _ _ Hp) as (_ & Hs & _).
    assert (Hrec : lines_loop nlines st2 (pre ++ rest)
                   = lines_loop nlines st1 rest).
    { apply IH; [assumption|]. intros n E. specialize (Hn n E).
      cbn [List.length] in Hn. lia. }
    destruct nlines as [n|]; [|assumption].
    specialize (Hn n eq_refl). cbn [List.length] in Hn.
    destruct (Z.geb_spec (st_section_id st2) n); [lia|assumption].
Qed.

(** C6, as stated, fails: the exception is the same wherever the line
    stands, so it does not tell the line number. *)
Lemma malformed_line_number_not_reported :
  read_annotated_data ["no delimiter"] None
  = inl (IndexError "list index out of range")
  /\ read_annotated_data ["[t] a"; "no delimiter"] None
     = inl (IndexError "list index out of range").
Proof. split; reflexivity. Qed.

(** C6, amended. When the loop reaches a body line without [##] (the lines
    before it parse and [nlines] has not stopped the loop), the call raises
    [IndexError] with the message [list index out of range], which carries no
    line number, and returns nothing. *)
Theorem read_annotated_data_malformed pre line post nlines r :
  read_annotated_data pre None = inr r ->
  match nlines with
  | None => True
  | Some n => pre = [] \/ (Z.of_nat (List.length pre) < n)%Z
  end ->
  is_title_line line = false ->
  Str.contains "##" line = false ->
  read_annotated_data (pre ++ line :: post) nlines
  = inl (IndexError "list index out of range").
Proof.
  intros Hpre Hreach Ht Hc. unfold read_annotated_data in *.
  destruct (lines_loop None initial_state pre) as [e|st] eqn:E; [discriminate|].
  assert (Hl : lines_loop nlines initial_state (pre ++ line :: post)
               = lines_loop nlines st (line :: post)).
  { destruct nlines as [n|].
    - destruct Hreach as [->|Hlt].
      + simpl in E. now injection E as <-.
      + apply lines_loop_prefix; [assumption|].
        intros n' [= <-]. simpl. lia.
    - apply lines_loop_prefix; [assumption|]. discriminate. }
  rewrite Hl. cbn [lines_loop].
  now rewrite process_line_malformed.
Qed.

Lemma read_annotated_data_malformed_witness :
  read_annotated_data ["[t] a"; "no delimiter"; "##b"] (Some 5%Z)
  = inl (IndexError "list index out of range").
Proof.
  apply (read_annotated_data_malformed ["[t] a"] "no delimiter" ["##b"]
           (Some 5%Z)
           (mk_annotated_data [mk_section_row 0 0 "a" true] [] [])).
  - reflexivity.
  - right. simpl. lia.
  - reflexivity.
  - reflexivity.
Defined.

End CorpusReaderFacts.

(** ** Dictionaries *)

Module DictFacts.

Section Facts.

Context {K V : Type}.
Variable eqb : K -> K -> bool.
Hypothesis eqb_eq : forall a b, eqb a b = true <-> a = b.

Lemma eqb_refl k : eqb k k = true.
Proof. now apply eqb_eq. Qed.

Lemma eqb_neq a b : a <> b -> eqb a b = false.
Proof.
  intros H. destruct (eqb a b) eqn:E; [|reflexivity].
  now apply eqb_eq in E.
Qed.

Lemma get_none k (d : Dict.t (K := K) (V := V)) :
  Dict.get eqb k d = None <-> ~ In k (Dict.keys d).
Proof.
  induction d as [|[k' v'] d IH]; simpl; [tauto|].
  destruct (eqb k' k) eqn:E.
  - apply eqb_eq in E. split; [discriminate|]. intros H. destruct H. auto.
  - rewrite IH. split.
    + intros H [H1|H1]; [|tauto]. subst. rewrite eqb_refl in E. discriminate.
    + tauto.
Qed.

Lemma get_in k v (d : Dict.t (K := K) (V := V)) :
  Dict.get eqb k d = Some v -> In (k, v) d.
Proof.
  induction d as [|[k' v'] d IH]; simpl; [discriminate|].
  destruct (eqb k' k) eqn:E.
  - apply eqb_eq in E. intros [= ->]. subst. auto.
  - auto.
Qed.

Lemma get_set_same k v (d : Dict.t (K := K) (V := V)) :
  Dict.get eqb k (Dict.set eqb k v d) = Some v.
Proof.
  induction d as [|[k' v'] d IH]; simpl.
  - now rewrite eqb_refl.
  - destruct (eqb k' k) eqn:E; simpl; now rewrite E.
Qed.

Lemma get_set_other k k' v (d : Dict.t (K := K) (V := V)) :
  k <> k' -> Dict.get eqb k' (Dict.set eqb k v d) = Dict.get eqb k' d.
Proof.
  intros Hne. induction d as [|[k0 v0] d IH]; simpl.
  - now rewrite eqb_neq.
  - destruct (eqb k0 k) eqn:E; simpl.
    + apply eqb_eq in E. subst. now rewrite eqb_neq.
    + now rewrite IH.
Qed.

Lemma get_default_set_same dflt k v (d : Dict.t (K := K) (V := V)) :
  Dict.get_default eqb dflt k (Dict.set eqb k v d) = v.
Proof. unfold Dict.get_default. now rewrite get_set_same. Qed.

Lemma get_default_set_other dflt k k' v (d : Dict.t (K := K) (V := V)) :
  k <> k' ->
  Dict.get_default eqb dflt k' (Dict.set eqb k v d)
  = Dict.get_default eqb dflt k' d.
Proof. intros H. unfold Dict.get_default. now rewrite get_set_other. Qed.

(** A new key goes last. *)
Lemma set_new k v (d : Dict.t (K := K) (V := V)) :
  ~ In k (Dict.keys d) -> Dict.set eqb k v d = d ++ [(k, v)].
Proof.
  induction d as [|[k' v'] d IH]; simpl; intros H; [reflexivity|].
  rewrite eqb_neq by tauto. rewrite IH by tauto. reflexivity.
Qed.

Lemma keys_set k v (d : Dict.t (K := K) (V := V)) x :
  In x (Dict.keys (Dict.set eqb k v d)) <-> x = k \/ In x (Dict.keys d).
Proof.
  induction d as [|[k' v'] d IH]; simpl.
  - intuition congruence.
  - destruct (eqb k' k) eqn:E; simpl.
    + apply eqb_eq in E. subst. intuition congruence.
    + rewrite IH. intuition congruence.
Qed.

Lemma keys_set_nodup k v (d : Dict.t (K := K) (V := V)) :
  NoDup (Dict.keys d) -> NoDup (Dict.keys (Dict.set eqb k v d)).
Proof.
  induction d as [|[k' v'] d IH]; simpl; intros H.
  - constructor; [easy|constructor].
  - inversion H as [|? ? Hn Hd]; subst.
    destruct (eqb k' k) eqn:E; simpl.
    + now constructor.
    + constructor; [|now apply IH].
      rewrite keys_set. intros [->|Hin]; [|tauto].
      rewrite eqb_refl in E. discriminate.
Qed.

Lemma values_set k v (d : Dict.t (K := K) (V := V)) (P : V -> Prop) :
  P v -> Forall P (Dict.values d) -> Forall P (Dict.values (Dict.set eqb k v d)).
Proof.
  intros Hv. induction d as [|[k' v'] d IH]; simpl; intros H.
  - now constructor.
  - inversion H; subst. destruct (eqb k' k); simpl; constructor; auto.
Qed.

Lemma get_default_values dflt k (d : Dict.t (K := K) (V := V)) (P : V -> Prop) :
  P dflt -> Forall P (Dict.values d) -> P (Dict.get_default eqb dflt k d).
Proof.
  intros Hd H. unfold Dict.get_default.
  destruct (Dict.get eqb k d) as [v|] eqn:E; [|assumption].
  apply get_in in E. rewrite Forall_forall in H. apply H.
  unfold Dict.values. now apply (in_map snd) in E.
Qed.

Lemma get_some_values k (d : Dict.t (K := K) (V := V)) (P : V -> Prop) :
  Forall P (Dict.values d) -> In k (Dict.keys d) ->
  exists v, Dict.get eqb k d = Some v /\ P v.
Proof.
  intros H Hin. destruct (Dict.get eqb k d) as [v|] eqn:E.
  - exists v. split; [reflexivity|]. apply get_in in E.
    rewrite Forall_forall in H. apply H.
    unfold Dict.values. now apply (in_map snd) in E.
  - apply get_none in E. contradiction.
Qed.

End Facts.

End DictFacts.

(** ** ModelBuilder *)

Module ModelBuilderFacts.

Import ModelBuilder.

(** *** Counters *)

Lemma counter_update_cons w ws c :
  counter_update (w :: ws) c
  = counter_update ws (Dict.set String.eqb w (count w c + 1)%Z c).
Proof. reflexivity. Qed.

Lemma counter_update_keys ws : forall c x,
  In x (Dict.keys (counter_update ws c)) <-> In x (Dict.keys c) \/ In x ws.
Proof.
  induction ws as [|w ws IH]; intros c x.
  - simpl. tauto.
  - rewrite counter_update_cons, IH.
    rewrite (DictFacts.keys_set String.eqb String.eqb_eq). simpl.
    intuition congruence.
Qed.

Lemma counter_update_nodup ws : forall c,
  NoDup (Dict.keys c) -> NoDup (Dict.keys (counter_update ws c)).
Proof.
  induction ws as [|w ws IH]; intros c H; [assumption|].
  rewrite counter_update_cons. apply IH.
  now apply (DictFacts.keys_set_nodup String.eqb String.eqb_eq).
Qed.

Lemma count_nonneg w c : positive c -> (0 <= count w c)%Z.
Proof.
  intros H. unfold count.
  apply (DictFacts.get_default_values String.eqb String.eqb_eq 0%Z w c
           (fun v => (0 <= v)%Z)); [lia|].
  eapply Forall_impl; [|exact H]. simpl. intros; lia.
Qed.

Lemma count_positive w c :
  positive c -> In w (Dict.keys c) -> (1 <= count w c)%Z.
Proof.
  intros H Hin.
  destruct (DictFacts.get_some_values String.eqb String.eqb_eq w c _ H Hin)
    as (v & Hv & Hp).
  unfold count, Dict.get_default. now rewrite Hv.
Qed.

Lemma counter_update_positive ws : forall c,
  positive c -> positive (counter_update ws c).
Proof.
  induction ws as [|w ws IH]; intros c H; [assumption|].
  rewrite counter_update_cons. apply IH. unfold positive.
  apply DictFacts.values_set; [|exact H].
  pose proof (count_nonneg w c H). lia.
Qed.

Lemma Counter_keys ws x : In x (Dict.keys (Counter ws)) <-> In x ws.
Proof. unfold Counter. rewrite counter_update_keys. simpl. tauto. Qed.

Lemma positive_nil : positive [].
Proof. constructor. Qed.

(** *** The loop over the sections *)

Lemma explicit_features_loop_positive sid words cswc fs :
  forall found mapping fwc,
    Forall positive (Dict.values fwc) ->
    Forall positive
      (Dict.values
         (snd (explicit_features_loop sid words cswc fs found mapping fwc))).
Proof.
  induction fs as [|row_f fs IH]; intros found mapping fwc H; [assumption|].
  cbn [explicit_features_loop].
  destruct (mem_str (FeatureCatalog.feature row_f) words); [|now apply IH].
  destruct (mem_Z (FeatureCatalog.feature_id row_f) found); [now apply IH|].
  apply IH. apply DictFacts.values_set; [|assumption].
  apply counter_update_positive.
  apply (DictFacts.get_default_values Z.eqb Z.eqb_eq [] _ fwc positive);
    [apply positive_nil|assumption].
Qed.

(** A feature none of whose terms is in the section keeps its counter. *)
Lemma explicit_features_loop_absent sid words cswc f fs :
  forall found mapping fwc,
    (forall row_f, In row_f fs -> FeatureCatalog.feature_id row_f = f ->
                   mem_str (FeatureCatalog.feature row_f) words = false) ->
    Dict.get Z.eqb f
      (snd (explicit_features_loop sid words cswc fs found mapping fwc))
    = Dict.get Z.eqb f fwc.
Proof.
  induction fs as [|row_f fs IH]; intros found mapping fwc H; [reflexivity|].
  assert (Hfs : forall row_f', In row_f' fs ->
                  FeatureCatalog.feature_id row_f' = f ->
                  mem_str (FeatureCatalog.feature row_f') words = false)
    by (intros; apply H; simpl; auto).
  cbn [explicit_features_loop].
  destruct (mem_str (FeatureCatalog.feature row_f) words) eqn:Em;
    [|now apply IH].
  destruct (mem_Z (FeatureCatalog.feature_id row_f) found); [now apply IH|].
  rewrite IH by assumption.
  apply (DictFacts.get_set_other Z.eqb Z.eqb_eq).
  intros E. rewrite (H row_f) in Em; [discriminate|simpl; auto|assumption].
Qed.

Section Counting.

Variable nlp : string -> list token.

Lemma count_section_counted fs acc row :
  counted acc -> counted (count_section nlp fs acc row).
Proof.
  intros [Hc Hs Hi Hn Hf]. unfold count_section.
  constructor;
    cbn [collection_word_counts word_section_counter feature_word_counter].
  - now apply counter_update_positive.
  - now apply counter_update_positive.
  - intros w. rewrite !counter_update_keys, Counter_keys. intuition.
  - now apply counter_update_nodup.
  - now apply explicit_features_loop_positive.
Qed.

Lemma fold_counted fs rows : forall acc,
  counted acc -> counted (fold_left (count_section nlp fs) rows acc).
Proof.
  induction rows as [|row rows IH]; intros acc H; [assumption|].
  simpl. apply IH. now apply count_section_counted.
Qed.

Lemma count_sections_counted text_set fs :
  counted (count_sections nlp text_set fs).
Proof.
  apply fold_counted. constructor; cbn; try constructor. intros w [].
Qed.

Lemma fold_absent fs f rows : forall acc,
  (forall row row_f,
      In row rows -> In row_f fs -> FeatureCatalog.feature_id row_f = f ->
      mem_str (FeatureCatalog.feature row_f)
        (section_words (nlp (section_text row))) = false) ->
  Dict.get Z.eqb f
    (feature_word_counter (fold_left (count_section nlp fs) rows acc))
  = Dict.get Z.eqb f (feature_word_counter acc).
Proof.
  induction rows as [|row rows IH]; intros acc H; [reflexivity|].
  simpl. rewrite IH by (intros; eapply H; simpl; eauto).
  unfold count_section. cbn [feature_word_counter].
  apply explicit_features_loop_absent.
  intros row_f Hin Hid. apply (H row row_f); simpl; auto.
Qed.

(** A feature that is never found has no counter at all. *)
Lemma never_found_no_counter text_set fs f :
  never_found nlp text_set fs f ->
  Dict.get Z.eqb f (feature_word_counter (count_sections nlp text_set fs))
  = None.
Proof.
  intros H. unfold count_sections. rewrite fold_absent; [reflexivity|].
  exact H.
Qed.

End Counting.

(** *** Real arithmetic *)

Local Open Scope R_scope.

Lemma ln_2_pos : 0 < ln 2.
Proof. pose proof ln_lt_2. lra. Qed.

Lemma log2_1 : log2 1 = 0.
Proof. unfold log2. rewrite ln_1. lra. Qed.

Lemma log2_nonneg x : 1 <= x -> 0 <= log2 x.
Proof.
  intros H. unfold log2, Rdiv. apply Rmult_le_pos.
  - destruct H as [H|<-].
    + left. rewrite <- ln_1. apply ln_increasing; lra.
    + rewrite ln_1. lra.
  - left. apply Rinv_0_lt_compat, ln_2_pos.
Qed.

Lemma math_log2_defined x : 0 < x -> math_log2 x = inr (log2 x).
Proof. intros H. unfold math_log2. destruct (Rle_dec x 0); [lra|reflexivity]. Qed.

Lemma int_truediv_defined a b :
  b <> 0%Z -> int_truediv a b = inr (IZR a / IZR b).
Proof.
  intros H. unfold int_truediv.
  destruct (Z.eqb_spec b 0); [contradiction|reflexivity].
Qed.

Lemma float_truediv_defined a b : b <> 0 -> float_truediv a b = inr (a / b).
Proof.
  intros H. unfold float_truediv.
  destruct (Req_dec_T b 0); [contradiction|reflexivity].
Qed.

Lemma sum_R_app xs ys : sum_R (xs ++ ys) = sum_R xs + sum_R ys.
Proof.
  unfold sum_R. induction xs as [|x xs IH]; simpl; [lra|].
  rewrite IH. lra.
Qed.

Lemma sum_R_div {A : Type} (g : A -> R) t l :
  sum_R (map (fun x => g x / t) l) = sum_R (map g l) / t.
Proof.
  unfold sum_R. induction l as [|x l IH]; simpl; [lra|].
  rewrite IH. lra.
Qed.

Lemma sum_R_nonneg {A : Type} (g : A -> R) l :
  (forall x, In x l -> 1 <= g x) -> 0 <= sum_R (map g l).
Proof.
  unfold sum_R. induction l as [|x l IH]; intros H; simpl; [lra|].
  assert (1 <= g x) by (apply H; simpl; auto).
  assert (0 <= fold_right Rplus 0 (map g l)) by (apply IH; intros; apply H; simpl; auto).
  lra.
Qed.

Lemma sum_R_positive {A : Type} (g : A -> R) l :
  (forall x, In x l -> 1 <= g x) -> l <> [] -> 1 <= sum_R (map g l).
Proof.
  intros H Hne. destruct l as [|x l]; [contradiction|].
  assert (1 <= g x) by (apply H; simpl; auto).
  assert (0 <= sum_R (map g l))
    by (apply sum_R_nonneg; intros; apply H; simpl; auto).
  unfold sum_R in *. simpl. lra.
Qed.

Lemma sum_R_const {A : Type} (g : A -> R) v l :
  (forall x, In x l -> g x = v) ->
  sum_R (map g l) = IZR (Z.of_nat (List.length l)) * v.
Proof.
  unfold sum_R. induction l as [|x l IH]; intros H.
  - simpl. lra.
  - cbn [map fold_right List.length]. rewrite IH by (intros; apply H; simpl; auto).
    rewrite (H x) by (simpl; auto).
    rewrite Nat2Z.inj_succ, succ_IZR. lra.
Qed.

Lemma mem_Z_In f l : mem_Z f l = true <-> In f l.
Proof.
  unfold mem_Z. rewrite existsb_exists. split.
  - intros (x & Hx & E). apply Z.eqb_eq in E. now subst.
  - intros H. exists f. split; [assumption|apply Z.eqb_refl].
Qed.

Lemma mem_Z_not_In f l : mem_Z f l = false <-> ~ In f l.
Proof.
  rewrite <- mem_Z_In. destruct (mem_Z f l); split; congruence.
Qed.

(** *** [unique] *)

Lemma unique_acc l : forall acc,
  NoDup acc ->
  NoDup (fold_left (fun a i => if mem_Z i a then a else a ++ [i]) l acc)
  /\ forall x,
       In x (fold_left (fun a i => if mem_Z i a then a else a ++ [i]) l acc)
       <-> In x acc \/ In x l.
Proof.
  induction l as [|i l IH]; intros acc H; simpl.
  - split; [assumption|]. tauto.
  - destruct (mem_Z i acc) eqn:E.
    + destruct (IH acc H) as [Hn Hi]. split; [assumption|].
      intros x. rewrite Hi. apply mem_Z_In in E. intuition congruence.
    + apply mem_Z_not_In in E.
      assert (Hn' : NoDup (acc ++ [i])).
      { apply NoDup_app; [assumption|constructor; [easy|constructor]|].
        intros x Hx [<-|[]]. contradiction. }
      destruct (IH _ Hn') as [Hn Hi]. split; [assumption|].
      intros x. rewrite Hi, in_app_iff. simpl. intuition.
Qed.

Lemma unique_nodup l : NoDup (unique l).
Proof. apply unique_acc. constructor. Qed.

Lemma unique_In l x : In x (unique l) <-> In x l.
Proof.
  unfold unique. destruct (unique_acc l [] (NoDup_nil _)) as [_ H].
  rewrite H. simpl. tauto.
Qed.

(** *** The scores *)

Section Scoring.

Variable c : counts.
Hypothesis Hc : counted c.

Lemma feature_counter_positive f :
  positive (Dict.get_default Z.eqb [] f (feature_word_counter c)).
Proof.
  apply (DictFacts.get_default_values Z.eqb Z.eqb_eq [] f _ positive).
  - apply positive_nil.
  - apply (counted_features c Hc).
Qed.

Lemma feature_word_count_nonneg f w : (0 <= feature_word_count c f w)%Z.
Proof. apply count_nonneg, feature_counter_positive. Qed.

Lemma sections_containing_positive w :
  In w (vocabulary c) -> (1 <= sections_containing c w)%Z.
Proof.
  intros H. apply count_positive.
  - apply (counted_sections c Hc).
  - now apply (counted_incl c Hc).
Qed.

Lemma total_sections_nonneg : (0 <= total_sections c)%Z.
Proof. unfold total_sections. lia. Qed.

Lemma idf_nonneg w :
  In w (vocabulary c) ->
  0 <= IZR (total_sections c) / IZR (sections_containing c w).
Proof.
  intros H. pose proof (sections_containing_positive w H) as Hs.
  pose proof total_sections_nonneg as Ht.
  apply IZR_le in Hs, Ht. unfold Rdiv. apply Rmult_le_pos; [assumption|].
  left. apply Rinv_0_lt_compat. lra.
Qed.

Lemma raw_score_ge_1 f w : In w (vocabulary c) -> 1 <= raw_score c f w.
Proof.
  intros H. unfold raw_score.
  pose proof (feature_word_count_nonneg f w) as Hf. apply IZR_le in Hf.
  pose proof (idf_nonneg w H) as Hi.
  assert (0 <= log2 (1 + IZR (feature_word_count c f w)))
    by (apply log2_nonneg; lra).
  assert (0 <= log2 (1 + IZR (total_sections c)
                         / IZR (sections_containing c w)))
    by (apply log2_nonneg; lra).
  assert (0 <= log2 (1 + IZR (feature_word_count c f w))
               * log2 (1 + IZR (total_sections c)
                           / IZR (sections_containing c w)))
    by now apply Rmult_le_pos.
  lra.
Qed.

Lemma raw_score_unseen f w : feature_word_count c f w = 0%Z -> raw_score c f w = 1.
Proof.
  intros H. unfold raw_score. rewrite H, Rplus_0_r, log2_1. lra.
Qed.

Lemma raw_total_positive f : vocabulary c <> [] -> 1 <= raw_total c f.
Proof.
  intros H. unfold raw_total. apply sum_R_positive; [|assumption].
  intros w Hw. now apply raw_score_ge_1.
Qed.

(** One turn of the loop over the feature ids computes the raw score. *)
Lemma tfidf_features_loop_cons w f rest tf norms :
  In w (vocabulary c) ->
  tfidf_features_loop c (total_sections c) w (f :: rest) tf norms
  = tfidf_features_loop c (total_sections c) w rest
      (Dict.set Z.eqb f
         (Dict.set String.eqb w (raw_score c f w)
            (Dict.get_default Z.eqb [] f tf)) tf)
      (Dict.set Z.eqb f
         (Dict.get_default Z.eqb 0 f norms + raw_score c f w) norms).
Proof.
  intros H. cbn [tfidf_features_loop].
  pose proof (feature_word_count_nonneg f w) as Hf.
  pose proof (sections_containing_positive w H) as Hs.
  pose proof (idf_nonneg w H) as Hi.
  fold (feature_word_count c f w). fold (sections_containing c w).
  rewrite math_log2_defined by (apply IZR_lt; lia). cbn [bind].
  rewrite int_truediv_defined by lia. cbn [bind].
  rewrite math_log2_defined by lra. cbn [bind].
  unfold raw_score. now rewrite plus_IZR.
Qed.

Lemma tfidf_features_loop_spec w : In w (vocabulary c) ->
  forall ids tf norms,
    NoDup ids ->
    exists tf' norms',
      tfidf_features_loop c (total_sections c) w ids tf norms
      = inr (tf', norms')
      /\ (forall f,
            Dict.get_default Z.eqb [] f tf'
            = if mem_Z f ids
              then Dict.set String.eqb w (raw_score c f w)
                     (Dict.get_default Z.eqb [] f tf)
              else Dict.get_default Z.eqb [] f tf)
      /\ (forall f,
            Dict.get_default Z.eqb 0 f norms'
            = if mem_Z f ids
              then Dict.get_default Z.eqb 0 f norms + raw_score c f w
              else Dict.get_default Z.eqb 0 f norms)
      /\ (forall x, In x (Dict.keys norms')
                    <-> In x (Dict.keys norms) \/ In x ids).
Proof.
  intros Hw. induction ids as [|f0 ids IH]; intros tf norms Hn.
  - exists tf, norms. repeat split; simpl; tauto.
  - rewrite tfidf_features_loop_cons by assumption.
    inversion Hn as [|? ? Hnot Hn']; subst.
    destruct (IH (Dict.set Z.eqb f0
                    (Dict.set String.eqb w (raw_score c f0 w)
                       (Dict.get_default Z.eqb [] f0 tf)) tf)
                 (Dict.set Z.eqb f0
                    (Dict.get_default Z.eqb 0 f0 norms + raw_score c f0 w)
                    norms) Hn')
      as (tf' & norms' & -> & Htf & Hno & Hk).
    exists tf', norms'. split; [reflexivity|]. split; [|split].
    + intros f. rewrite Htf. cbn [mem_Z existsb]. fold (mem_Z f ids).
      destruct (Z.eqb_spec f f0) as [->|Hne].
      * apply mem_Z_not_In in Hnot. rewrite Hnot. cbn [orb].
        apply (DictFacts.get_default_set_same Z.eqb Z.eqb_eq).
      * cbn [orb].
        rewrite (DictFacts.get_default_set_other Z.eqb Z.eqb_eq)
          by congruence.
        reflexivity.
    + intros f. rewrite Hno. cbn [mem_Z existsb]. fold (mem_Z f ids).
      destruct (Z.eqb_spec f f0) as [->|Hne].
      * apply mem_Z_not_In in Hnot. rewrite Hnot. cbn [orb].
        apply (DictFacts.get_default_set_same Z.eqb Z.eqb_eq).
      * cbn [orb].
        rewrite (DictFacts.get_default_set_other Z.eqb Z.eqb_eq)
          by congruence.
        reflexivity.
    + intros x. rewrite Hk, (DictFacts.keys_set Z.eqb Z.eqb_eq). simpl.
      intuition congruence.
Qed.

(** The rows of raw scores of feature [f] over the words [ws]. *)
Lemma keys_scores (g : string -> R) ws :
  Dict.keys (map (fun w => (w, g w)) ws) = ws.
Proof. unfold Dict.keys. rewrite map_map. simpl. apply map_id. Qed.

Lemma tfidf_words_loop_spec ids : NoDup ids ->
  forall ws done tf norms,
    (forall w, In w ws -> In w (vocabulary c)) ->
    NoDup (done ++ ws) ->
    (forall f, In f ids ->
       Dict.get_default Z.eqb [] f tf
       = map (fun w => (w, raw_score c f w)) done
       /\ Dict.get_default Z.eqb 0 f norms
          = sum_R (map (raw_score c f) done)) ->
    (forall x, In x (Dict.keys norms) <-> In x ids /\ done <> []) ->
    exists tf' norms',
      tfidf_words_loop c (total_sections c) ws ids tf norms = inr (tf', norms')
      /\ (forall f, In f ids ->
            Dict.get_default Z.eqb [] f tf'
            = map (fun w => (w, raw_score c f w)) (done ++ ws)
            /\ Dict.get_default Z.eqb 0 f norms'
               = sum_R (map (raw_score c f) (done ++ ws)))
      /\ (forall x, In x (Dict.keys norms') <-> In x ids /\ done ++ ws <> []).
Proof.
  intros Hids. induction ws as [|w ws IH]; intros done tf norms Hv Hn Hst Hk.
  - exists tf, norms. rewrite app_nil_r.
    split; [reflexivity|]. split; [exact Hst|exact Hk].
  - cbn [tfidf_words_loop].
    destruct (tfidf_features_loop_spec w (Hv w (or_introl eq_refl))
                ids tf norms Hids)
      as (tf1 & norms1 & -> & Htf & Hno & Hk1).
    cbn [bind fst snd].
    assert (Hw : ~ In w done).
    { apply NoDup_remove_2 in Hn. rewrite in_app_iff in Hn. tauto. }
    destruct (IH (done ++ [w]) tf1 norms1) as (tf' & norms' & -> & H1 & H2).
    + intros; apply Hv; simpl; auto.
    + now rewrite <- app_assoc.
    + intros f Hf. destruct (Hst f Hf) as [Ha Hb].
      rewrite Htf, Hno. apply mem_Z_In in Hf. rewrite Hf.
      rewrite Ha, Hb. split.
      * rewrite (DictFacts.set_new String.eqb String.eqb_eq)
          by now rewrite keys_scores.
        now rewrite map_app.
      * rewrite map_app, sum_R_app. unfold sum_R. simpl. lra.
    + intros x. rewrite Hk1, Hk. split.
      * intros [[Hx _]|Hx]; (split; [assumption|]);
          intros E; now apply app_eq_nil in E as [_ E].
      * tauto.
    + exists tf', norms'. split; [reflexivity|].
      rewrite <- app_assoc in H1, H2. split; assumption.
Qed.

(** *** Normalisation *)

Lemma keys_app {V : Type} (a b : Dict.t (K := string) (V := V)) :
  Dict.keys (a ++ b) = Dict.keys a ++ Dict.keys b.
Proof. apply map_app. Qed.

Lemma normalize_items_spec norm : norm <> 0 ->
  forall items acc,
    NoDup (Dict.keys acc ++ Dict.keys items) ->
    normalize_items norm items acc
    = inr (acc ++ map (fun kv => (fst kv, snd kv / norm)) items).
Proof.
  intros Hn. induction items as [|[k v] items IH]; intros acc Hd.
  - simpl. now rewrite app_nil_r.
  - cbn [normalize_items]. rewrite float_truediv_defined by assumption.
    cbn [bind]. simpl in Hd.
    rewrite (DictFacts.set_new String.eqb String.eqb_eq).
    + rewrite IH.
      * now rewrite <- app_assoc.
      * rewrite keys_app, <- app_assoc. exact Hd.
    + apply NoDup_remove_2 in Hd. rewrite in_app_iff in Hd. tauto.
Qed.

Lemma normalize_loop_spec tf norms : forall indexes mf,
  (forall i, In i indexes ->
     Dict.get_default Z.eqb 0 i norms <> 0
     /\ NoDup (Dict.keys (Dict.get_default Z.eqb [] i tf))) ->
  exists mf',
    normalize_loop indexes tf norms mf = inr mf'
    /\ forall f,
         Dict.get_default Z.eqb [] f mf'
         = if mem_Z f indexes
           then map (fun kv => (fst kv,
                                snd kv / Dict.get_default Z.eqb 0 f norms))
                  (Dict.get_default Z.eqb [] f tf)
           else Dict.get_default Z.eqb [] f mf.
Proof.
  induction indexes as [|i indexes IH]; intros mf H.
  - exists mf. split; reflexivity.
  - cbn [normalize_loop].
    destruct (H i (or_introl eq_refl)) as [Hn Hd].
    rewrite normalize_items_spec by assumption. cbn [bind app].
    edestruct IH as (mf' & -> & Hmf); [intros; apply H; simpl; auto|].
    exists mf'. split; [reflexivity|].
    intros f. rewrite Hmf. cbn [mem_Z existsb]. fold (mem_Z f indexes).
    destruct (Z.eqb_spec f i) as [->|Hne]; cbn [orb].
    + destruct (mem_Z i indexes); [reflexivity|].
      apply (DictFacts.get_default_set_same Z.eqb Z.eqb_eq).
    + destruct (mem_Z f indexes); [reflexivity|].
      apply (DictFacts.get_default_set_other Z.eqb Z.eqb_eq). congruence.
Qed.

(** *** The background model *)

Lemma background_loop_spec size : size <> 0%Z ->
  forall (items : counter) acc,
    NoDup (Dict.keys acc ++ Dict.keys items) ->
    background_loop size items acc
    = inr (acc ++ map (fun kv => (fst kv, IZR (snd kv) / IZR size)) items).
Proof.
  intros Hn. induction items as [|[k v] items IH]; intros acc Hd.
  - simpl. now rewrite app_nil_r.
  - cbn [background_loop]. rewrite int_truediv_defined by assumption.
    cbn [bind]. simpl in Hd.
    rewrite (DictFacts.set_new String.eqb String.eqb_eq).
    + rewrite IH.
      * now rewrite <- app_assoc.
      * rewrite keys_app, <- app_assoc. exact Hd.
    + apply NoDup_remove_2 in Hd. rewrite in_app_iff in Hd. tauto.
Qed.

Lemma sum_Z_acc l : forall a,
  Forall (fun v => (1 <= v)%Z) l ->
  (a + Z.of_nat (List.length l) <= fold_left Z.add l a)%Z.
Proof.
  induction l as [|x l IH]; intros a H; simpl fold_left.
  - simpl. lia.
  - inversion H; subst. specialize (IH (a + x)%Z H3).
    cbn [List.length]. lia.
Qed.

Lemma vocabulary_size_positive :
  collection_word_counts c <> [] ->
  (1 <= sum_Z (Dict.values (collection_word_counts c)))%Z.
Proof.
  intros H. pose proof (sum_Z_acc _ 0%Z (counted_collection c Hc)) as Hs.
  unfold sum_Z. unfold Dict.values in *. rewrite length_map in Hs.
  destruct (collection_word_counts c); [contradiction|].
  cbn [List.length] in Hs. lia.
Qed.

End Scoring.

(** *** [build_explicit_models] as a whole *)

(** The call returns, and what it returns is a function of the counters. *)
Lemma build_explicit_models_spec nlp text_set feature_set :
  let c := count_sections nlp text_set feature_set in
  let ids := unique (map FeatureCatalog.feature_id feature_set) in
  exists r,
    build_explicit_models nlp text_set feature_set = inr r
    /\ model_background r
       = map (fun kv =>
                (fst kv,
                 IZR (snd kv)
                 / IZR (sum_Z (Dict.values (collection_word_counts c)))))
           (collection_word_counts c)
    /\ doc_counts r = section_word_counts c
    /\ (forall f, In f ids -> vocabulary c <> [] ->
          topic_model r f
          = map (fun w => (w, raw_score c f w / raw_total c f)) (vocabulary c))
    /\ (forall f, vocabulary c = [] \/ ~ In f ids -> topic_model r f = []).
Proof.
  intros c ids.
  pose proof (count_sections_counted nlp text_set feature_set) as Hc.
  fold c in Hc.
  assert (Hids : NoDup ids) by apply unique_nodup.
  unfold build_explicit_models. fold c. fold ids.
  assert (Hbg : background_loop
                  (sum_Z (Dict.values (collection_word_counts c)))
                  (collection_word_counts c) []
                = inr (map (fun kv =>
                              (fst kv,
                               IZR (snd kv)
                               / IZR (sum_Z (Dict.values
                                               (collection_word_counts c)))))
                         (collection_word_counts c))).
  { destruct (collection_word_counts c) as [|kv rest] eqn:E; [reflexivity|].
    rewrite <- E. rewrite background_loop_spec; [reflexivity| |].
    - pose proof (vocabulary_size_positive c Hc) as Hp.
      rewrite E in Hp |- *. specialize (Hp ltac:(discriminate)). lia.
    - apply (counted_nodup c Hc). }
  rewrite Hbg. cbn [bind].
  destruct (tfidf_words_loop_spec c Hc ids Hids (vocabulary c) [] [] [])
    as (tf & norms & Hloop & Hrows & Hkeys).
  { auto. }
  { apply (counted_nodup c Hc). }
  { intros f _. split; reflexivity. }
  { intros x. simpl. tauto. }
  match goal with
  | |- context [bind ?m _] =>
      assert (Hm : m = inr (tf, norms)) by exact Hloop; rewrite Hm; clear Hm
  end.
  cbn [bind fst snd app] in *.
  destruct (normalize_loop_spec tf norms (Dict.keys norms) [])
    as (mf & Hnorm & Hmf).
  { intros i Hi. apply Hkeys in Hi as [Hi Hv].
    destruct (Hrows i Hi) as [Ha Hb]. rewrite Ha, Hb, keys_scores.
    split; [|apply (counted_nodup c Hc)].
    pose proof (raw_total_positive c Hc i Hv) as Hp.
    unfold raw_total in Hp. lra. }
  match goal with
  | |- context [bind ?m _] =>
      assert (Hm : m = inr mf) by exact Hnorm; rewrite Hm; clear Hm
  end.
  cbn [bind]. eexists. split; [reflexivity|].
  unfold topic_model. cbn [model_background doc_counts model_feature].
  split; [reflexivity|]. split; [reflexivity|]. split.
  - intros f Hf Hv. rewrite Hmf.
    assert (Hin : In f (Dict.keys norms)) by (apply Hkeys; tauto).
    apply mem_Z_In in Hin. rewrite Hin.
    destruct (Hrows f Hf) as [-> ->]. rewrite map_map. reflexivity.
  - intros f H. rewrite Hmf.
    assert (Hin : ~ In f (Dict.keys norms)) by (rewrite Hkeys; tauto).
    apply mem_Z_not_In in Hin. now rewrite Hin.
Qed.

Lemma topic_model_values (g : string -> R) ws :
  Dict.values (map (fun w => (w, g w)) ws) = map g ws.
Proof. unfold Dict.values. rewrite map_map. reflexivity. Qed.

(** C1, as stated, fails: on a corpus without words the topic model of a
    feature is empty, and its probabilities sum to 0. *)
Lemma empty_vocabulary_topic_model :
  exists r,
    build_explicit_models letters [] [FeatureCatalog.mk_feature_row 0 0 "a"]
    = inr r
    /\ sum_R (Dict.values (topic_model r 0)) <> 1.
Proof.
  eexists. split; [reflexivity|].
  unfold topic_model, sum_R. simpl. lra.
Qed.

(** C1, amended. When the vocabulary is not empty, [build_explicit_models]
    gives every vocabulary word, for every feature id of [feature_set], the
    raw score log2(1 + feature_word_count) * log2(1 + total_sections /
    sections_containing) + 1 divided by the sum of the raw scores of that
    feature over the vocabulary; these probabilities are positive and sum
    to 1, in exact real arithmetic. *)
Theorem build_explicit_models_topic_model nlp text_set feature_set f :
  let c := count_sections nlp text_set feature_set in
  vocabulary c <> [] ->
  In f (map FeatureCatalog.feature_id feature_set) ->
  exists r,
    build_explicit_models nlp text_set feature_set = inr r
    /\ topic_model r f
       = map (fun w => (w, raw_score c f w / raw_total c f)) (vocabulary c)
    /\ (forall p, In p (Dict.values (topic_model r f)) -> 0 < p)
    /\ sum_R (Dict.values (topic_model r f)) = 1.
Proof.
  intros c Hv Hf.
  pose proof (count_sections_counted nlp text_set feature_set) as Hc.
  fold c in Hc.
  destruct (build_explicit_models_spec nlp text_set feature_set)
    as (r & Hr & _ & _ & Htm & _).
  fold c in Htm. apply unique_In in Hf. specialize (Htm f Hf Hv).
  pose proof (raw_total_positive c Hc f Hv) as Ht.
  exists r. split; [assumption|]. split; [assumption|].
  rewrite Htm, topic_model_values. split.
  - intros p Hp. apply in_map_iff in Hp as (w & <- & Hw).
    pose proof (raw_score_ge_1 c Hc f w Hw).
    apply Rdiv_lt_0_compat; lra.
  - rewrite (sum_R_div (raw_score c f)). fold (raw_total c f).
    field. lra.
Qed.

Lemma build_explicit_models_topic_model_witness :
  exists r,
    build_explicit_models letters [mk_text_row 0 "xxy"]
      [FeatureCatalog.mk_feature_row 0 0 "x"]
    = inr r
    /\ sum_R (Dict.values (topic_model r 0)) = 1.
Proof.
  destruct (build_explicit_models_topic_model letters [mk_text_row 0 "xxy"]
              [FeatureCatalog.mk_feature_row 0 0 "x"] 0%Z)
    as (r & Hr & _ & _ & Hs).
  - vm_compute. discriminate.
  - simpl. auto.
  - exists r. split; assumption.
Defined.

(** C3, as stated, fails: the topic model of a feature that is never found
    gives the two words of this corpus the same probability, while the
    background model gives them 2/3 and 1/3. *)
Lemma unseen_feature_differs_from_background :
  exists r,
    build_explicit_models letters [mk_text_row 0 "xxy"]
      [FeatureCatalog.mk_feature_row 0 0 "z"]
    = inr r
    /\ topic_model r 0 <> model_background r.
Proof.
  destruct (build_explicit_models_spec letters [mk_text_row 0 "xxy"]
              [FeatureCatalog.mk_feature_row 0 0 "z"])
    as (r & Hr & Hbg & _ & Htm & _).
  exists r. split; [assumption|].
  pose proof (count_sections_counted letters [mk_text_row 0 "xxy"]
                [FeatureCatalog.mk_feature_row 0 0 "z"]) as Hc.
  assert (Ec : count_sections letters [mk_text_row 0 "xxy"]
                 [FeatureCatalog.mk_feature_row 0 0 "z"]
               = mk_counts [(0%Z, ["x"; "x"; "y"])]
                   [(0%Z, [("x", 2%Z); ("y", 1%Z)])]
                   [("x", 2%Z); ("y", 1%Z)] [("x", 1%Z); ("y", 1%Z)] [] [])
    by reflexivity.
  rewrite Ec in Hbg, Htm, Hc.
  rewrite Hbg, Htm; [|now left|discriminate].
  unfold vocabulary, raw_total, vocabulary, sum_R.
  cbn [collection_word_counts Dict.keys Dict.values map fold_right fst snd
       sum_Z fold_left Z.add Pos.add Pos.succ].
  rewrite !raw_score_unseen by reflexivity.
  intros E. injection E as E _. lra.
Qed.

(** C3, amended. If no section contains a term of a feature id of
    [feature_set], [build_explicit_models] returns, and the topic model of
    that feature gives every word of the vocabulary the same probability,
    one over the number of words. *)
Theorem build_explicit_models_unseen_feature nlp text_set feature_set f :
  never_found nlp text_set feature_set f ->
  In f (map FeatureCatalog.feature_id feature_set) ->
  exists r,
    build_explicit_models nlp text_set feature_set = inr r
    /\ topic_model r f
       = map (fun w =>
                (w, 1 / IZR (Z.of_nat
                               (List.length
                                  (vocabulary
                                     (count_sections nlp text_set
                                        feature_set))))))
           (vocabulary (count_sections nlp text_set feature_set)).
Proof.
  intros Hnf Hf.
  pose proof (count_sections_counted nlp text_set feature_set) as Hc.
  destruct (build_explicit_models_spec nlp text_set feature_set)
    as (r & Hr & _ & _ & Htm & Hempty).
  cbv zeta in Htm, Hempty.
  set (c := count_sections nlp text_set feature_set) in *.
  exists r. split; [assumption|].
  destruct (vocabulary c) as [|w0 ws] eqn:Ev.
  - rewrite Hempty by now left. reflexivity.
  - rewrite <- Ev in *. apply unique_In in Hf.
    rewrite Htm; [|assumption|rewrite Ev; discriminate].
    assert (Hraw : forall w, raw_score c f w = 1).
    { intros w. apply raw_score_unseen.
      unfold feature_word_count, Dict.get_default. unfold c.
      now rewrite never_found_no_counter. }
    unfold raw_total. rewrite (sum_R_const (raw_score c f) 1) by auto.
    apply map_ext. intros w. now rewrite Hraw, Rmult_1_r.
Qed.

Lemma build_explicit_models_unseen_feature_witness :
  exists r,
    build_explicit_models letters [mk_text_row 0 "xxy"]
      [FeatureCatalog.mk_feature_row 0 0 "z"]
    = inr r
    /\ topic_model r 0 = [("x", 1 / 2); ("y", 1 / 2)].
Proof.
  destruct (build_explicit_models_unseen_feature letters
              [mk_text_row 0 "xxy"] [FeatureCatalog.mk_feature_row 0 0 "z"]
              0%Z)
    as (r & Hr & Htm).
  - intros row row_f [<-|[]] [<-|[]] _. reflexivity.
  - simpl. auto.
  - exists r. split; [assumption|]. exact Htm.
Defined.

(** C10. Every word counted in [collection_word_counts] is counted at least
    once in [word_section_counter], so the division of the score by that
    count is defined, and [build_explicit_models] returns without a division
    by zero. *)
Theorem build_explicit_models_divisions nlp text_set feature_set w :
  let c := count_sections nlp text_set feature_set in
  In w (Dict.keys (collection_word_counts c)) ->
  (1 <= count w (word_section_counter c))%Z
  /\ int_truediv (Z.of_nat (List.length (section_word_list c)))
       (count w (word_section_counter c))
     = inr (IZR (Z.of_nat (List.length (section_word_list c)))
            / IZR (count w (word_section_counter c)))
  /\ exists r, build_explicit_models nlp text_set feature_set = inr r.
Proof.
  intros c Hw.
  pose proof (count_sections_counted nlp text_set feature_set) as Hc.
  fold c in Hc.
  pose proof (sections_containing_positive c Hc w Hw) as Hs.
  unfold sections_containing in Hs.
  split; [assumption|]. split.
  - apply int_truediv_defined. lia.
  - destruct (build_explicit_models_spec nlp text_set feature_set)
      as (r & Hr & _). now exists r.
Qed.

Lemma build_explicit_models_divisions_witness :
  (1 <= count "y"
          (word_section_counter
             (count_sections letters [mk_text_row 0 "xxy"; mk_text_row 1 "x"]
                [FeatureCatalog.mk_feature_row 0 0 "x"])))%Z.
Proof.
  apply (build_explicit_models_divisions letters
           [mk_text_row 0 "xxy"; mk_text_row 1 "x"]
           [FeatureCatalog.mk_feature_row 0 0 "x"] "y").
  vm_compute. auto.
Defined.

End ModelBuilderFacts.

(** ** CorpusReader: annotations, limits and acceptance *)

Module CorpusReaderLaws.

Import CorpusReader.

(** [s.split(sep)[0]] *)
Lemma index_split_first sep s : sep <> EmptyString ->
  Str.index (Str.split sep s) 0 = inr (up_to_next sep s).
Proof.
  intros Hsep. rewrite StrFacts.split_unfold by assumption.
  unfold up_to_next. now destruct (Str.find sep s).
Qed.

Lemma tally_app xs ys d : tally (xs ++ ys) d = tally ys (tally xs d).
Proof. unfold tally. apply fold_left_app. Qed.

(** The loop over the annotations never raises. *)
Lemma annotations_loop_spec doc sid fs : forall mapping fl,
  annotations_loop doc sid fs mapping fl
  = inr (mapping ++ map (mention_of doc sid) fs,
         tally (map CorpusReader.feature (map (mention_of doc sid) fs)) fl).
Proof.
  induction fs as [|a fs IH]; intros mapping fl.
  - simpl. now rewrite app_nil_r.
  - cbn [annotations_loop]. rewrite index_split_first by discriminate.
    cbn [bind]. rewrite IH. cbn [map]. rewrite <- app_assoc. reflexivity.
Qed.

(** A body line with [##] never raises. *)
Lemma process_line_body st line :
  is_title_line line = false ->
  Str.contains "##" line = true ->
  process_line st line
  = inr (mk_state (st_doc_id st) (st_section_id st + 1)
           (st_section_list st
              ++ [section_of (st_doc_id st) (st_section_id st) line])
           (st_feature_section_mapping st
              ++ mentions_of (st_doc_id st) (st_section_id st) line)
           (tally
              (map CorpusReader.feature
                 (mentions_of (st_doc_id st) (st_section_id st) line))
              (st_feature_list st))).
Proof.
  intros Ht Hc. unfold process_line.
  rewrite CorpusReaderFacts.classify_body by assumption. cbn [bind fst snd].
  rewrite index_split_first by discriminate. cbn [bind].
  unfold mentions_of, has_annotations, annotations, annotation_field.
  rewrite Ht. cbn [negb andb].
  destruct (StrFacts.split_cons "," (up_to_next "##" line)) as (h & t & E).
  rewrite E. cbn [Str.index nth_error bind ret hd].
  destruct (String.eqb h "") eqn:Eh; cbn [negb].
  - cbn [bind ret fst snd map tally fold_left]. unfold section_of.
    rewrite Ht, app_nil_r. reflexivity.
  - rewrite annotations_loop_spec. cbn [bind ret fst snd].
    unfold section_of. rewrite Ht. reflexivity.
Qed.

(** What a line does to the state, title or body. *)
Lemma process_line_accepted st line :
  accepted_line line = true ->
  let doc' := (if is_title_line line then st_doc_id st + 1
               else st_doc_id st)%Z in
  process_line st line
  = inr (mk_state doc' (st_section_id st + 1)
           (st_section_list st
              ++ [section_of (st_doc_id st) (st_section_id st) line])
           (st_feature_section_mapping st
              ++ mentions_of doc' (st_section_id st) line)
           (tally
              (map CorpusReader.feature
                 (mentions_of doc' (st_section_id st) line))
              (st_feature_list st))).
Proof.
  unfold accepted_line. intros H. cbv zeta.
  destruct (is_title_line line) eqn:Ht.
  - rewrite CorpusReaderFacts.process_line_title by assumption.
    unfold mentions_of, has_annotations. rewrite Ht. cbn [negb andb].
    rewrite app_nil_r. reflexivity.
  - simpl in H. now apply process_line_body.
Qed.

Lemma process_line_rejected st line :
  accepted_line line = false ->
  process_line st line = inl (IndexError "list index out of range").
Proof.
  unfold accepted_line. intros H. apply orb_false_elim in H as [Ht Hc].
  now apply CorpusReaderFacts.process_line_malformed.
Qed.

(** Without a limit, accepted lines are gone through to the end. *)
Lemma lines_loop_accepted lines : forall st,
  forallb accepted_line lines = true ->
  lines_loop None st lines
  = inr (mk_state (st_doc_id st + count_titles lines)
           (st_section_id st + Z.of_nat (List.length lines))
           (st_section_list st
              ++ sections_of (st_doc_id st) (st_section_id st) lines)
           (st_feature_section_mapping st
              ++ mentions_of_lines (st_doc_id st) (st_section_id st) lines)
           (tally
              (map CorpusReader.feature
                 (mentions_of_lines (st_doc_id st) (st_section_id st) lines))
              (st_feature_list st))).
Proof.
  induction lines as [|line rest IH]; intros st H.
  - destruct st. unfold count_titles. simpl. rewrite !app_nil_r, !Z.add_0_r.
    reflexivity.
  - cbn [forallb] in H. apply andb_prop in H as [Hl Hr].
    cbn [lines_loop]. rewrite process_line_accepted by assumption.
    cbv zeta. cbn [bind]. rewrite IH by assumption.
    cbn [st_doc_id st_section_id st_section_list st_feature_section_mapping
         st_feature_list sections_of mentions_of_lines List.length].
    rewrite CorpusReaderFacts.count_titles_cons, map_app, tally_app,
      <- !app_assoc.
    f_equal. f_equal; destruct (is_title_line line); lia.
Qed.

(** Without a limit, the first line that is not accepted raises. *)
Lemma lines_loop_rejected pre bad post : forall st,
  forallb accepted_line pre = true ->
  accepted_line bad = false ->
  lines_loop None st (pre ++ bad :: post)
  = inl (IndexError "list index out of range").
Proof.
  induction pre as [|line pre IH]; intros st Hpre Hbad.
  - cbn [app lines_loop]. now rewrite process_line_rejected.
  - cbn [forallb] in Hpre. apply andb_prop in Hpre as [Hl Hr].
    cbn [app lines_loop]. rewrite process_line_accepted by assumption.
    cbv zeta. cbn [bind]. now apply IH.
Qed.

Lemma first_not_accepted lines :
  forallb accepted_line lines = false ->
  exists pre bad post,
    lines = pre ++ bad :: post
    /\ forallb accepted_line pre = true
    /\ accepted_line bad = false.
Proof.
  induction lines as [|l lines IH]; simpl; [discriminate|].
  destruct (accepted_line l) eqn:E; simpl; intros H.
  - destruct (IH H) as (pre & bad & post & -> & Hpre & Hbad).
    exists (l :: pre), bad, post. simpl. now rewrite E.
  - now exists [], l, lines.
Qed.

(** A limit only shortens the input: the lines after it are not looked at. *)
Lemma lines_loop_limit n lines : forall st,
  lines_loop (Some n) st lines
  = lines_loop None st
      (firstn (Z.to_nat (Z.max 1 (n - st_section_id st))) lines).
Proof.
  induction lines as [|line rest IH]; intros st.
  - now rewrite firstn_nil.
  - assert (Hk : Z.to_nat (Z.max 1 (n - st_section_id st))
                 = S (Z.to_nat (Z.max 1 (n - st_section_id st)) - 1)) by lia.
    rewrite Hk. cbn [firstn lines_loop].
    destruct (process_line st line) as [e|st1] eqn:Hp; [reflexivity|].
    cbn [bind].
    pose proof (CorpusReaderFacts.process_line_inr _ _ _ Hp) as (_ & Hs & _).
    destruct (Z.geb_spec (st_section_id st1) n) as [Hge|Hlt].
    + replace (Z.to_nat (Z.max 1 (n - st_section_id st)) - 1)%nat with O by lia.
      reflexivity.
    + rewrite IH. do 2 f_equal. lia.
Qed.

(** The call as a function of the lines read. *)
Lemma read_annotated_data_cases lines nlines :
  let ls := firstn (lines_read nlines lines) lines in
  read_annotated_data lines nlines
  = if forallb accepted_line ls
    then inr (mk_annotated_data (sections_of (-1) 0 ls)
                (mentions_of_lines (-1) 0 ls)
                (tally (map CorpusReader.feature (mentions_of_lines (-1) 0 ls))
                   []))
    else inl (IndexError "list index out of range").
Proof.
  cbv zeta. unfold read_annotated_data.
  assert (Hl : lines_loop nlines initial_state lines
               = lines_loop None initial_state
                   (firstn (lines_read nlines lines) lines)).
  { unfold lines_read. destruct nlines as [n|].
    - rewrite lines_loop_limit. cbn [initial_state st_section_id].
      rewrite Z.sub_0_r. destruct lines as [|l lines]; [now rewrite !firstn_nil|].
      f_equal.
      destruct (Nat.le_ge_cases (List.length (l :: lines))
                  (Z.to_nat (Z.max 1 n))) as [Hle|Hge].
      + rewrite Nat.min_l by assumption.
        now rewrite firstn_all, firstn_all2.
      + now rewrite Nat.min_r.
    - now rewrite firstn_all. }
  rewrite Hl.
  destruct (forallb accepted_line (firstn (lines_read nlines lines) lines))
    eqn:E.
  - rewrite lines_loop_accepted by assumption. reflexivity.
  - destruct (first_not_accepted _ E) as (pre & bad & post & -> & Hpre & Hbad).
    now rewrite lines_loop_rejected.
Qed.

Lemma read_annotated_data_inr_all lines nlines r :
  read_annotated_data lines nlines = inr r ->
  let ls := firstn (lines_read nlines lines) lines in
  forallb accepted_line ls = true
  /\ section_list r = sections_of (-1) 0 ls
  /\ feature_mapping r = mentions_of_lines (-1) 0 ls
  /\ feature_list r
     = tally (map CorpusReader.feature (mentions_of_lines (-1) 0 ls)) [].
Proof.
  rewrite read_annotated_data_cases. cbv zeta.
  destruct (forallb accepted_line (firstn (lines_read nlines lines) lines));
    [|discriminate].
  intros [= <-]. repeat split.
Qed.

Lemma nth_error_read lines nlines i line :
  nth_error lines i = Some line ->
  (i < lines_read nlines lines)%nat ->
  nth_error (firstn (lines_read nlines lines) lines) i = Some line.
Proof.
  intros Hn Hi. rewrite nth_error_firstn.
  destruct (Nat.ltb_spec i (lines_read nlines lines)); [assumption|lia].
Qed.

Lemma firstn_prefix {A : Type} (l : list A) i k :
  (i <= k)%nat -> firstn i (firstn k l) = firstn i l.
Proof. intros H. rewrite firstn_firstn. f_equal. lia. Qed.

Lemma mentions_of_section doc sid line m :
  In m (mentions_of doc sid line) ->
  mapping_section_id m = sid /\ mapping_doc_id m = doc
  /\ is_title_line line = false.
Proof.
  unfold mentions_of, has_annotations.
  destruct (is_title_line line); cbn [negb andb]; [easy|].
  destruct (negb _); [|easy].
  intros H. apply in_map_iff in H as (a & <- & _). now simpl.
Qed.

Lemma mentions_of_lines_ids lines : forall doc sid m,
  In m (mentions_of_lines doc sid lines) ->
  (sid <= mapping_section_id m < sid + Z.of_nat (List.length lines))%Z.
Proof.
  induction lines as [|l lines IH]; intros doc sid m H; [easy|].
  cbn [mentions_of_lines] in H. apply in_app_or in H as [H|H].
  - apply mentions_of_section in H as (-> & _ & _). simpl List.length. lia.
  - apply IH in H. simpl List.length. lia.
Qed.

Lemma filter_all {A : Type} (p : A -> bool) l :
  (forall x, In x l -> p x = true) -> filter p l = l.
Proof.
  induction l as [|x l IH]; intros H; simpl; [reflexivity|].
  rewrite (H x) by (simpl; auto). f_equal. apply IH. intros; apply H; simpl; auto.
Qed.

Lemma filter_none {A : Type} (p : A -> bool) l :
  (forall x, In x l -> p x = false) -> filter p l = [].
Proof.
  induction l as [|x l IH]; intros H; simpl; [reflexivity|].
  rewrite (H x) by (simpl; auto). apply IH. intros; apply H; simpl; auto.
Qed.

(** The mentions that carry the section id of a line are those of the line. *)
Lemma mentions_of_lines_section lines : forall doc sid i line,
  nth_error lines i = Some line ->
  filter (fun m => Z.eqb (mapping_section_id m) (sid + Z.of_nat i))
    (mentions_of_lines doc sid lines)
  = mentions_of (doc + count_titles (firstn (S i) lines)) (sid + Z.of_nat i)
      line.
Proof.
  induction lines as [|l lines IH]; intros doc sid i line H.
  - destruct i; discriminate.
  - cbn [mentions_of_lines]. rewrite filter_app.
    destruct i as [|i]; cbn [nth_error] in H.
    + injection H as ->. cbn [firstn].
      rewrite CorpusReaderFacts.count_titles_cons.
      unfold count_titles at 1. cbn [filter List.length Z.of_nat].
      rewrite !Z.add_0_r.
      rewrite filter_all, filter_none.
      * rewrite app_nil_r. f_equal. destruct (is_title_line line); lia.
      * intros m Hm. apply mentions_of_lines_ids in Hm. apply Z.eqb_neq. lia.
      * intros m Hm. apply mentions_of_section in Hm as (-> & _). apply Z.eqb_refl.
    + rewrite filter_none.
      * cbn [app]. rewrite firstn_cons, CorpusReaderFacts.count_titles_cons.
        replace (sid + Z.of_nat (S i))%Z with (sid + 1 + Z.of_nat i)%Z by lia.
        rewrite (IH _ _ _ _ H). f_equal. destruct (is_title_line l); lia.
      * intros m Hm. apply mentions_of_section in Hm as (-> & _).
        apply Z.eqb_neq. lia.
Qed.

Lemma mentions_have_sections lines : forall doc sid m,
  In m (mentions_of_lines doc sid lines) ->
  exists s,
    In s (sections_of doc sid lines)
    /\ section_id s = mapping_section_id m
    /\ doc_id s = mapping_doc_id m
    /\ title s = false.
Proof.
  induction lines as [|l lines IH]; intros doc sid m H; [easy|].
  cbn [mentions_of_lines sections_of] in *.
  apply in_app_or in H as [H|H].
  - apply mentions_of_section in H as (Hs & Hd & Ht).
    exists (section_of doc sid l). unfold section_of. rewrite Ht in *.
    cbn [section_id doc_id title]. repeat split; auto. now left.
  - apply IH in H as (s & Hin & Hrest). exists s. split; [now right|assumption].
Qed.

Lemma tally_count fs : forall d f,
  Dict.get_default String.eqb 0%Z f (tally fs d)
  = (Dict.get_default String.eqb 0%Z f d
     + Z.of_nat (count_occ string_dec fs f))%Z.
Proof.
  induction fs as [|a fs IH]; intros d f.
  - simpl. lia.
  - change (tally (a :: fs) d)
      with (tally fs (Dict.set String.eqb a
                        (Dict.get_default String.eqb 0 a d + 1)%Z d)).
    rewrite IH. cbn [count_occ]. destruct (string_dec a f) as [->|Hne].
    + rewrite (DictFacts.get_default_set_same String.eqb String.eqb_eq). lia.
    + rewrite (DictFacts.get_default_set_other String.eqb String.eqb_eq)
        by assumption.
      lia.
Qed.

Lemma tally_nodup fs : forall d,
  NoDup (Dict.keys d) -> NoDup (Dict.keys (tally fs d)).
Proof.
  induction fs as [|a fs IH]; intros d H; [assumption|].
  change (tally (a :: fs) d)
    with (tally fs (Dict.set String.eqb a
                      (Dict.get_default String.eqb 0 a d + 1)%Z d)).
  apply IH. now apply (DictFacts.keys_set_nodup String.eqb String.eqb_eq).
Qed.

Lemma doc_id_section_of doc sid line :
  doc_id (section_of doc sid line)
  = (if is_title_line line then doc + 1 else doc)%Z.
Proof. reflexivity. Qed.

Lemma title_section_of doc sid line :
  title (section_of doc sid line) = is_title_line line.
Proof. reflexivity. Qed.

Lemma count_titles_firstn_le lines : forall i j,
  (i <= j)%nat ->
  (count_titles (firstn i lines) <= count_titles (firstn j lines))%Z.
Proof.
  induction lines as [|l lines IH]; intros i j H.
  - rewrite !firstn_nil. lia.
  - destruct i as [|i].
    + unfold count_titles. simpl firstn at 1. simpl. lia.
    + destruct j as [|j]; [lia|]. cbn [firstn].
      rewrite !CorpusReaderFacts.count_titles_cons.
      specialize (IH i j ltac:(lia)). lia.
Qed.

(** X1. A limit [nlines = n] only shortens the input: the call returns, or
    raises, what the call without limit does on the first [max 1 n] lines;
    the lines after them are never looked at. *)
Theorem read_annotated_data_limit lines n :
  read_annotated_data lines (Some n)
  = read_annotated_data (firstn (Z.to_nat (Z.max 1 n)) lines) None.
Proof.
  unfold read_annotated_data. rewrite lines_loop_limit.
  cbn [initial_state st_section_id]. now rewrite Z.sub_0_r.
Qed.

(** X2. The call returns exactly when every line it reads contains [[t]],
    starts with [*] or contains [##]; otherwise it raises [IndexError]. *)
Theorem read_annotated_data_accepts lines nlines :
  ((exists r, read_annotated_data lines nlines = inr r)
   <-> forallb accepted_line (firstn (lines_read nlines lines) lines) = true)
  /\ (forallb accepted_line (firstn (lines_read nlines lines) lines) = false
      -> read_annotated_data lines nlines
         = inl (IndexError "list index out of range")).
Proof.
  pose proof (read_annotated_data_cases lines nlines) as H. cbv zeta in H.
  destruct (forallb accepted_line (firstn (lines_read nlines lines) lines)).
  - split; [|discriminate]. split; [reflexivity|]. intros _. eauto.
  - split; [|intros _; exact H]. split; [|discriminate].
    intros [r Hr]. congruence.
Qed.

Lemma read_annotated_data_accepts_witness :
  read_annotated_data ["[t] a"; "x##b"; "no delimiter"] (Some 1%Z)
  <> inl (IndexError "list index out of range")
  /\ read_annotated_data ["[t] a"; "no delimiter"] None
     = inl (IndexError "list index out of range").
Proof.
  split.
  - destruct (proj2 (proj1 (read_annotated_data_accepts
                              ["[t] a"; "x##b"; "no delimiter"] (Some 1%Z)))
                eq_refl) as [r Hr].
    rewrite Hr. discriminate.
  - apply (proj2 (read_annotated_data_accepts ["[t] a"; "no delimiter"] None)).
    reflexivity.
Defined.

(** X3. The mentions recorded for a line are those of its annotations: none
    for a title line or for a line whose first annotation is empty, otherwise
    one per comma-separated annotation, in order, with the section and
    document ids of the line, the text before the first [[@]] as feature, and
    [is_explicit] false exactly when the annotation contains [[u]]. *)
Theorem read_annotated_data_mentions lines nlines r i line :
  read_annotated_data lines nlines = inr r ->
  nth_error lines i = Some line ->
  (i < List.length (section_list r))%nat ->
  filter (fun m => Z.eqb (mapping_section_id m) (Z.of_nat i))
    (feature_mapping r)
  = if has_annotations line
    then map (fun a =>
                mk_mapping_row (count_titles (firstn (S i) lines) - 1)
                  (Z.of_nat i) (up_to_next "[@]" a)
                  (negb (Str.contains "[u]" a)))
           (annotations line)
    else [].
Proof.
  intros H Hn Hi.
  pose proof (CorpusReaderFacts.read_annotated_data_length _ _ _ H) as Hlen.
  apply read_annotated_data_inr_all in H. cbv zeta in H.
  destruct H as (_ & _ & -> & _).
  rewrite Hlen in Hi.
  pose proof (nth_error_read _ nlines _ _ Hn Hi) as Hk.
  pose proof (mentions_of_lines_section _ (-1) 0 _ _ Hk) as Hf.
  rewrite Z.add_0_l in Hf. rewrite Hf.
  rewrite firstn_prefix by lia.
  unfold mentions_of, mention_of.
  replace (-1 + count_titles (firstn (S i) lines))%Z
    with (count_titles (firstn (S i) lines) - 1)%Z by lia.
  reflexivity.
Qed.

Lemma read_annotated_data_mentions_witness :
  filter (fun m => Z.eqb (mapping_section_id m) 1)
    [mk_mapping_row 0 1 "sound" true; mk_mapping_row 0 1 "size[u]" false;
     mk_mapping_row 0 2 "sound" true]
  = map (fun a =>
           mk_mapping_row 0 1 (up_to_next "[@]" a)
             (negb (Str.contains "[u]" a)))
      ["sound[@]+2"; "size[u]"].
Proof.
  assert (Hi : (1 < 3)%nat) by lia.
  exact (read_annotated_data_mentions
           ["[t] T"; "sound[@]+2,size[u]##a"; "sound##b"] None
           (mk_annotated_data
              [mk_section_row 0 0 "t" true; mk_section_row 0 1 "a" false;
               mk_section_row 0 2 "b" false]
              [mk_mapping_row 0 1 "sound" true;
               mk_mapping_row 0 1 "size[u]" false;
               mk_mapping_row 0 2 "sound" true]
              [("sound", 2%Z); ("size[u]", 1%Z)])
           1 "sound[@]+2,size[u]##a" eq_refl eq_refl Hi).
Defined.

(** X4. Every recorded mention belongs to a returned section: a section
    that is no title and has the section id and the document id of the
    mention. *)
Theorem read_annotated_data_mention_section lines nlines r m :
  read_annotated_data lines nlines = inr r ->
  In m (feature_mapping r) ->
  exists s,
    In s (section_list r)
    /\ section_id s = mapping_section_id m
    /\ doc_id s = mapping_doc_id m
    /\ title s = false.
Proof.
  intros H Hm. apply read_annotated_data_inr_all in H. cbv zeta in H.
  destruct H as (_ & -> & Hmap & _). rewrite Hmap in Hm.
  now apply mentions_have_sections.
Qed.

Lemma read_annotated_data_mention_section_witness :
  exists s,
    In s [mk_section_row 0 0 "t" true; mk_section_row 0 1 "a" false]
    /\ section_id s = 1%Z /\ doc_id s = 0%Z /\ title s = false.
Proof.
  apply (read_annotated_data_mention_section ["[t] T"; "sound##a"] None
           (mk_annotated_data
              [mk_section_row 0 0 "t" true; mk_section_row 0 1 "a" false]
              [mk_mapping_row 0 1 "sound" true] [("sound", 1%Z)])
           (mk_mapping_row 0 1 "sound" true) eq_refl).
  simpl. auto.
Defined.

(** X5. The returned [feature_list] counts the mentions: each feature string
    is a key once, and its value is the number of recorded mentions with
    that feature (0 standing for a missing key). *)
Theorem read_annotated_data_feature_list lines nlines r :
  read_annotated_data lines nlines = inr r ->
  NoDup (Dict.keys (feature_list r))
  /\ forall f,
       Dict.get_default String.eqb 0%Z f (feature_list r)
       = Z.of_nat
           (count_occ string_dec
              (map CorpusReader.feature (feature_mapping r)) f).
Proof.
  intros H. apply read_annotated_data_inr_all in H. cbv zeta in H.
  destruct H as (_ & _ & -> & ->). split.
  - apply tally_nodup. constructor.
  - intros f. rewrite tally_count. reflexivity.
Qed.

Lemma read_annotated_data_feature_list_witness :
  Dict.get_default String.eqb 0%Z "sound" [("sound", 2%Z); ("size", 1%Z)]
  = Z.of_nat (count_occ string_dec ["sound"; "size"; "sound"] "sound").
Proof.
  exact (proj2 (read_annotated_data_feature_list
                  ["[t] T"; "sound,size##a"; "sound##b"] None
                  (mk_annotated_data
                     [mk_section_row 0 0 "t" true; mk_section_row 0 1 "a" false;
                      mk_section_row 0 2 "b" false]
                     [mk_mapping_row 0 1 "sound" true;
                      mk_mapping_row 0 1 "size" true;
                      mk_mapping_row 0 2 "sound" true]
                     [("sound", 2%Z); ("size", 1%Z)])
                  eq_refl) "sound").
Defined.

(** X6. The section of a body line is no title, keeps the current document
    id, and its text is what stands between the first [##] of the line and
    the next one (the end of the line when there is none), trimmed and
    lowercased; such a line, when read, contains [##]. *)
Theorem read_annotated_data_body lines nlines r i line :
  read_annotated_data lines nlines = inr r ->
  nth_error lines i = Some line ->
  (i < List.length (section_list r))%nat ->
  is_title_line line = false ->
  Str.contains "##" line = true
  /\ exists s,
       nth_error (section_list r) i = Some s
       /\ title s = false
       /\ doc_id s = (count_titles (firstn i lines) - 1)%Z
       /\ section_text s
          = Str.lower (Str.strip (up_to_next "##" (after_first "##" line))).
Proof.
  intros H Hn Hi Ht.
  pose proof (CorpusReaderFacts.read_annotated_data_length _ _ _ H) as Hlen.
  apply read_annotated_data_inr_all in H. cbv zeta in H.
  destruct H as (Hacc & -> & _ & _).
  rewrite Hlen in Hi.
  pose proof (nth_error_read _ nlines _ _ Hn Hi) as Hk.
  split.
  - rewrite forallb_forall in Hacc.
    specialize (Hacc line (nth_error_In _ _ Hk)).
    unfold accepted_line in Hacc. now rewrite Ht in Hacc.
  - rewrite (CorpusReaderFacts.sections_of_nth _ _ _ _ _ Hk).
    eexists. split; [reflexivity|].
    unfold section_of, line_text. rewrite Ht.
    cbn [title doc_id section_text]. rewrite firstn_prefix by lia.
    repeat split. lia.
Qed.

Lemma read_annotated_data_body_witness :
  exists s,
    nth_error [mk_section_row 0 0 "t" true; mk_section_row 0 1 "a b" false] 1
    = Some s
    /\ section_text s = "a b".
Proof.
  assert (Hi : (1 < 2)%nat) by lia.
  destruct (read_annotated_data_body ["[t] T"; "sound## A b ##c"] None
              (mk_annotated_data
                 [mk_section_row 0 0 "t" true;
                  mk_section_row 0 1 "a b" false]
                 [mk_mapping_row 0 1 "sound" true] [("sound", 1%Z)])
              1 "sound## A b ##c" eq_refl eq_refl Hi eq_refl)
    as (_ & s & Hs & _ & _ & Htxt).
  exists s. split; [exact Hs|exact Htxt].
Defined.

(** X7. Along the returned sections the document id never goes down, it
    starts at -1 or 0, and from the first title on it is never -1 again. *)
Theorem read_annotated_data_doc_ids lines nlines r i j si sj :
  read_annotated_data lines nlines = inr r ->
  nth_error (section_list r) i = Some si ->
  nth_error (section_list r) j = Some sj ->
  (i <= j)%nat ->
  (-1 <= doc_id si <= doc_id sj)%Z
  /\ (title si = true -> (0 <= doc_id sj)%Z).
Proof.
  intros H Hi Hj Hij.
  pose proof (CorpusReaderFacts.read_annotated_data_inr _ _ _ H) as Hs.
  set (ls := firstn (lines_read nlines lines) lines) in *.
  assert (Hlen : List.length (section_list r) = List.length ls)
    by (rewrite Hs; apply CorpusReaderFacts.sections_of_length).
  assert (Hil : (i < List.length ls)%nat)
    by (rewrite <- Hlen; apply nth_error_Some; congruence).
  assert (Hjl : (j < List.length ls)%nat)
    by (rewrite <- Hlen; apply nth_error_Some; congruence).
  destruct (nth_error ls i) as [li|] eqn:Eli;
    [|apply nth_error_None in Eli; lia].
  destruct (nth_error ls j) as [lj|] eqn:Elj;
    [|apply nth_error_None in Elj; lia].
  rewrite Hs in Hi, Hj.
  rewrite (CorpusReaderFacts.sections_of_nth _ _ _ _ _ Eli) in Hi.
  rewrite (CorpusReaderFacts.sections_of_nth _ _ _ _ _ Elj) in Hj.
  assert (Esi : si = section_of (-1 + count_titles (firstn i ls))
                      (0 + Z.of_nat i) li) by congruence.
  assert (Esj : sj = section_of (-1 + count_titles (firstn j ls))
                      (0 + Z.of_nat j) lj) by congruence.
  rewrite Esi, Esj, !doc_id_section_of, title_section_of.
  clear Hi Hj Esi Esj.
  assert (Hstep : forall k l, nth_error ls k = Some l ->
            count_titles (firstn (S k) ls)
            = (count_titles (firstn k ls)
               + (if is_title_line l then 1 else 0))%Z).
  { clear. intros k l. revert k. induction ls as [|l0 ls IH]; intros k Hk.
    - destruct k; discriminate.
    - destruct k as [|k]; simpl in Hk.
      + injection Hk as ->. cbn [firstn].
        rewrite CorpusReaderFacts.count_titles_cons. unfold count_titles.
        simpl. lia.
      + rewrite !firstn_cons, !CorpusReaderFacts.count_titles_cons.
        rewrite (IH k Hk). lia. }
  pose proof (count_titles_firstn_le ls (S i) (S j) ltac:(lia)) as Hmono.
  rewrite (Hstep i li Eli), (Hstep j lj Elj) in Hmono.
  assert (H0 : (0 <= count_titles (firstn i ls))%Z)
    by (unfold count_titles; lia).
  revert Hmono.
  destruct (is_title_line li), (is_title_line lj); intros Hmono;
    (split; [lia|intros Ht; try discriminate Ht; lia]).
Qed.

Lemma read_annotated_data_doc_ids_witness :
  (-1 <= 0 <= 1)%Z /\ (true = true -> (0 <= 1)%Z).
Proof.
  assert (Hij : (0 <= 2)%nat) by lia.
  exact (read_annotated_data_doc_ids ["[t] T"; "##a"; "* U"] None
           (mk_annotated_data
              [mk_section_row 0 0 "t" true; mk_section_row 0 1 "a" false;
               mk_section_row 1 2 "u" true] [] [])
           0 2 (mk_section_row 0 0 "t" true) (mk_section_row 1 2 "u" true)
           eq_refl eq_refl eq_refl Hij).
Defined.

End CorpusReaderLaws.

(** ** FeatureCatalog: order and composition *)

Module FeatureCatalogLaws.

Import FeatureCatalog.

Lemma number_terms_shift fi ti d e terms :
  number_terms (fi + d) (ti + e) terms
  = map (shift_row d e) (number_terms fi ti terms).
Proof.
  revert ti. induction terms as [|s terms IH]; intros ti; [reflexivity|].
  cbn [number_terms map]. unfold shift_row at 1. cbn [feature_term_id feature_id feature].
  f_equal. replace (ti + e + 1)%Z with (ti + 1 + e)%Z by lia. apply IH.
Qed.

Lemma catalog_rows_shift fl : forall fi ti d e,
  catalog_rows fl (fi + d) (ti + e)
  = map (shift_row d e) (catalog_rows fl fi ti).
Proof.
  induction fl as [|x fl IH]; intros fi ti d e; [reflexivity|].
  cbn [catalog_rows]. rewrite map_app, number_terms_shift. f_equal.
  replace (fi + d + 1)%Z with (fi + 1 + d)%Z by lia.
  replace (ti + e + Z.of_nat (List.length (entry_terms x)))%Z
    with (ti + Z.of_nat (List.length (entry_terms x)) + e)%Z by lia.
  apply IH.
Qed.

Lemma catalog_rows_length fl : forall fi ti,
  List.length (catalog_rows fl fi ti)
  = List.length (flat_map entry_terms fl).
Proof.
  induction fl as [|x fl IH]; intros fi ti; [reflexivity|].
  cbn [catalog_rows flat_map].
  now rewrite !length_app, FeatureCatalogFacts.number_terms_length, IH.
Qed.

Lemma catalog_rows_app xs ys : forall fi ti,
  catalog_rows (xs ++ ys) fi ti
  = catalog_rows xs fi ti
      ++ catalog_rows ys (fi + Z.of_nat (List.length xs))
           (ti + Z.of_nat (List.length (catalog_rows xs fi ti))).
Proof.
  induction xs as [|x xs IH]; intros fi ti.
  - cbn [app catalog_rows List.length]. now rewrite !Z.add_0_r.
  - cbn [app catalog_rows]. rewrite IH, <- app_assoc. do 2 f_equal.
    rewrite length_app, FeatureCatalogFacts.number_terms_length.
    f_equal; cbn [List.length]; lia.
Qed.

Lemma catalog_rows_features fl : forall fi ti,
  map feature (catalog_rows fl fi ti) = flat_map entry_terms fl.
Proof.
  induction fl as [|x fl IH]; intros fi ti; [reflexivity|].
  cbn [catalog_rows flat_map].
  now rewrite map_app, FeatureCatalogFacts.number_terms_features, IH.
Qed.

Lemma catalog_rows_sorted fl : forall fi ti,
  StronglySorted Z.le (map feature_id (catalog_rows fl fi ti)).
Proof.
  induction fl as [|x fl IH]; intros fi ti; [constructor|].
  cbn [catalog_rows]. rewrite map_app.
  assert (Hrest : forall y,
            In y (map feature_id
                    (catalog_rows fl (fi + 1)
                       (ti + Z.of_nat (List.length (entry_terms x))))) ->
            (fi <= y)%Z).
  { intros y Hy. apply in_map_iff in Hy as (r & <- & Hr).
    apply FeatureCatalogFacts.catalog_rows_ids in Hr. lia. }
  generalize (IH (fi + 1)%Z (ti + Z.of_nat (List.length (entry_terms x)))%Z).
  revert Hrest.
  generalize (map feature_id
                (catalog_rows fl (fi + 1)
                   (ti + Z.of_nat (List.length (entry_terms x))))).
  intros rest Hrest Hsorted.
  generalize ti. induction (entry_terms x) as [|s terms IHt]; intros t.
  - exact Hsorted.
  - cbn [number_terms map app]. constructor; [apply IHt|].
    apply Forall_forall. intros y Hy. cbn [feature_id].
    apply in_app_or in Hy as [Hy|Hy].
    + apply in_map_iff in Hy as (r & <- & Hr).
      apply FeatureCatalogFacts.number_terms_id in Hr. lia.
    + now apply Hrest.
Qed.

(** X8. The table of a concatenation is the table of the first list followed
    by the table of the second one with its feature ids moved up by the
    number of entries of the first list and its term ids by the number of its
    rows; and a list that is rejected stays rejected, with the same
    exception, whatever is appended to it. *)
Theorem format_feature_list_app (py_str : pyobj -> string) xs ys :
  (forall rx ry,
      format_feature_list py_str xs = inr rx ->
      format_feature_list py_str ys = inr ry ->
      format_feature_list py_str (xs ++ ys)
      = inr (rx ++ map (shift_row (Z.of_nat (List.length xs))
                          (Z.of_nat (List.length rx))) ry))
  /\ (forall e,
        format_feature_list py_str xs = inl e ->
        format_feature_list py_str (xs ++ ys) = inl e).
Proof.
  split.
  - intros rx ry Hx Hy.
    apply FeatureCatalogFacts.format_feature_list_inr in Hx as [Hwx ->].
    apply FeatureCatalogFacts.format_feature_list_inr in Hy as [Hwy ->].
    unfold format_feature_list.
    rewrite FeatureCatalogFacts.features_loop_accepts
      by (rewrite forallb_app, Hwx, Hwy; reflexivity).
    cbn [app]. rewrite catalog_rows_app. do 2 f_equal.
    rewrite <- catalog_rows_shift. reflexivity.
  - intros e He.
    destruct (forallb well_formed_entry xs) eqn:E.
    + unfold format_feature_list in He.
      rewrite FeatureCatalogFacts.features_loop_accepts in He by assumption.
      discriminate.
    + destruct (FeatureCatalogFacts.first_rejected xs E)
        as (pre & bad & post & -> & Hpre & Hbad).
      unfold format_feature_list in *.
      rewrite FeatureCatalogFacts.features_loop_rejects in He by assumption.
      rewrite <- app_assoc. cbn [app].
      rewrite FeatureCatalogFacts.features_loop_rejects by assumption.
      exact He.
Qed.

Lemma format_feature_list_app_witness :
  format_feature_list show [PyStr "a"; PyList [PyStr "b"; PyStr "c"]; PyStr "d"]
  = inr ([mk_feature_row 0 0 "a"; mk_feature_row 1 1 "b";
          mk_feature_row 2 1 "c"]
           ++ map (shift_row 2 3) [mk_feature_row 0 0 "d"]).
Proof.
  exact (proj1 (format_feature_list_app show
                  [PyStr "a"; PyList [PyStr "b"; PyStr "c"]] [PyStr "d"])
           [mk_feature_row 0 0 "a"; mk_feature_row 1 1 "b";
            mk_feature_row 2 1 "c"]
           [mk_feature_row 0 0 "d"] eq_refl eq_refl).
Defined.

(** X9. The table lists the strings of the input in their order, one row
    each: top-level strings and the elements of nested lists as they come;
    and the feature ids never go down along the table. *)
Theorem format_feature_list_order (py_str : pyobj -> string) fl rows :
  format_feature_list py_str fl = inr rows ->
  map feature rows = flat_map entry_terms fl
  /\ StronglySorted Z.le (map feature_id rows).
Proof.
  intros H. apply FeatureCatalogFacts.format_feature_list_inr in H as [_ ->].
  split; [apply catalog_rows_features|apply catalog_rows_sorted].
Qed.

Lemma format_feature_list_order_witness :
  map feature
    [mk_feature_row 0 0 "a"; mk_feature_row 1 1 "b"; mk_feature_row 2 1 "c"]
  = flat_map entry_terms [PyStr "a"; PyList [PyStr "b"; PyStr "c"]].
Proof.
  exact (proj1 (format_feature_list_order show
                  [PyStr "a"; PyList [PyStr "b"; PyStr "c"]]
                  [mk_feature_row 0 0 "a"; mk_feature_row 1 1 "b";
                   mk_feature_row 2 1 "c"] eq_refl)).
Defined.

End FeatureCatalogLaws.

(** ** ModelBuilder: what the counters count *)

Module ModelBuilderLaws.

Import ModelBuilder.

Lemma counter_update_count ws : forall c w,
  count w (counter_update ws c)
  = (count w c + Z.of_nat (count_occ string_dec ws w))%Z.
Proof.
  induction ws as [|a ws IH]; intros c w.
  - simpl. lia.
  - rewrite ModelBuilderFacts.counter_update_cons, IH. cbn [count_occ].
    unfold count at 1 3.
    destruct (string_dec a w) as [->|Hne].
    + rewrite (DictFacts.get_default_set_same String.eqb String.eqb_eq).
      unfold count. lia.
    + rewrite (DictFacts.get_default_set_other String.eqb String.eqb_eq)
        by assumption.
      lia.
Qed.

Lemma mem_str_In w ws : mem_str w ws = true <-> In w ws.
Proof.
  unfold mem_str. rewrite existsb_exists. split.
  - intros (x & Hx & E). apply String.eqb_eq in E. now subst.
  - intros H. exists w. split; [assumption|apply String.eqb_refl].
Qed.

Lemma Counter_nodup ws : NoDup (Dict.keys (Counter ws)).
Proof. apply ModelBuilderFacts.counter_update_nodup. constructor. Qed.

(** A word is a key of [Counter(words)] once if it is among [words]. *)
Lemma Counter_keys_occ ws w :
  Z.of_nat (count_occ string_dec (Dict.keys (Counter ws)) w)
  = if mem_str w ws then 1%Z else 0%Z.
Proof.
  destruct (mem_str w ws) eqn:E.
  - apply mem_str_In in E. apply ModelBuilderFacts.Counter_keys in E.
    pose proof (proj1 (NoDup_count_occ string_dec _) (Counter_nodup ws) w).
    apply (count_occ_In string_dec) in E. lia.
  - assert (Hn : ~ In w (Dict.keys (Counter ws))).
    { rewrite ModelBuilderFacts.Counter_keys, <- mem_str_In. congruence. }
    apply (count_occ_not_In string_dec) in Hn. now rewrite Hn.
Qed.

(** What the loop over the features does to the counter of one feature. *)
Lemma explicit_features_loop_counter sid words cswc f fs :
  forall found mapping fwc,
    Dict.get_default Z.eqb [] f
      (snd (explicit_features_loop sid words cswc fs found mapping fwc))
    = if mem_Z f found || negb (mentions_feature fs f words)
      then Dict.get_default Z.eqb [] f fwc
      else counter_update (Dict.keys cswc) (Dict.get_default Z.eqb [] f fwc).
Proof.
  induction fs as [|row_f fs IH]; intros found mapping fwc.
  - cbn. now rewrite orb_true_r.
  - cbn [explicit_features_loop mentions_feature existsb].
    fold (mentions_feature fs f words).
    destruct (mem_str (FeatureCatalog.feature row_f) words) eqn:Em.
    + destruct (mem_Z (FeatureCatalog.feature_id row_f) found) eqn:Ef.
      * rewrite IH.
        destruct (Z.eqb_spec (FeatureCatalog.feature_id row_f) f) as [<-|Hne].
        -- now rewrite Ef.
        -- reflexivity.
      * rewrite IH. cbn [mem_Z existsb]. fold (mem_Z f found).
        destruct (Z.eqb_spec (FeatureCatalog.feature_id row_f) f) as [<-|Hne].
        -- rewrite Z.eqb_refl, Ef. cbn [orb andb negb].
           apply (DictFacts.get_default_set_same Z.eqb Z.eqb_eq).
        -- rewrite (proj2 (Z.eqb_neq f _)) by congruence. cbn [orb andb].
           rewrite (DictFacts.get_default_set_other Z.eqb Z.eqb_eq)
             by assumption.
           reflexivity.
    + rewrite IH. now rewrite andb_false_r.
Qed.

Section Rows.

Variable nlp : string -> list token.
Variable feature_set : list FeatureCatalog.feature_row.

Lemma rows_where_cons p row rows :
  rows_where p (row :: rows)
  = ((if p row then 1 else 0) + rows_where p rows)%Z.
Proof.
  unfold rows_where. cbn [filter]. destruct (p row); cbn [List.length]; lia.
Qed.

Lemma fold_collection rows : forall acc w,
  count w (collection_word_counts
             (fold_left (count_section nlp feature_set) rows acc))
  = (count w (collection_word_counts acc)
     + Z.of_nat (count_occ string_dec (flat_map (words_of nlp) rows) w))%Z.
Proof.
  induction rows as [|row rows IH]; intros acc w.
  - simpl. lia.
  - cbn [fold_left flat_map]. rewrite IH. unfold count_section at 1.
    cbn [collection_word_counts]. rewrite counter_update_count.
    rewrite count_occ_app. fold (words_of nlp row). lia.
Qed.

Lemma fold_word_sections rows : forall acc w,
  count w (word_section_counter
             (fold_left (count_section nlp feature_set) rows acc))
  = (count w (word_section_counter acc)
     + rows_where (fun row => mem_str w (words_of nlp row)) rows)%Z.
Proof.
  induction rows as [|row rows IH]; intros acc w.
  - unfold rows_where. simpl. lia.
  - cbn [fold_left]. rewrite IH, rows_where_cons. unfold count_section at 1.
    cbn [word_section_counter]. rewrite counter_update_count, Counter_keys_occ.
    fold (words_of nlp row). lia.
Qed.

Lemma fold_feature_words rows : forall acc f w,
  count w (Dict.get_default Z.eqb [] f
             (feature_word_counter
                (fold_left (count_section nlp feature_set) rows acc)))
  = (count w (Dict.get_default Z.eqb [] f (feature_word_counter acc))
     + rows_where
         (fun row =>
            mem_str w (words_of nlp row)
            && mentions_feature feature_set f (words_of nlp row))
         rows)%Z.
Proof.
  induction rows as [|row rows IH]; intros acc f w.
  - unfold rows_where. simpl. lia.
  - cbn [fold_left]. rewrite IH, rows_where_cons. unfold count_section at 1.
    cbn [feature_word_counter]. rewrite explicit_features_loop_counter.
    cbn [mem_Z existsb orb]. fold (words_of nlp row).
    destruct (mentions_feature feature_set f (words_of nlp row));
      cbn [negb]; rewrite ?andb_false_r, ?andb_true_r.
    + rewrite counter_update_count, Counter_keys_occ. lia.
    + lia.
Qed.

Lemma fold_vocabulary rows : forall acc w,
  In w (Dict.keys (collection_word_counts
                     (fold_left (count_section nlp feature_set) rows acc)))
  <-> In w (Dict.keys (collection_word_counts acc))
      \/ In w (flat_map (words_of nlp) rows).
Proof.
  induction rows as [|row rows IH]; intros acc w.
  - simpl. tauto.
  - cbn [fold_left flat_map]. rewrite IH. unfold count_section at 1.
    cbn [collection_word_counts].
    rewrite ModelBuilderFacts.counter_update_keys, in_app_iff.
    fold (words_of nlp row). tauto.
Qed.

Lemma rows_where_le p rows : (0 <= rows_where p rows <= Z.of_nat (List.length rows))%Z.
Proof.
  unfold rows_where. pose proof (filter_length_le p rows). lia.
Qed.

Lemma rows_where_and_le p q rows :
  (rows_where (fun row => p row && q row) rows <= rows_where p rows)%Z.
Proof.
  induction rows as [|row rows IH]; [unfold rows_where; simpl; lia|].
  rewrite !rows_where_cons. destruct (p row), (q row); cbn [andb]; lia.
Qed.

(** The counters of a section id are those of the last row that has it. *)
Lemma fold_section_word_counts_last pre row post : forall acc,
  (forall row', In row' post -> section_id row' <> section_id row) ->
  Dict.get Z.eqb (section_id row)
    (section_word_counts
       (fold_left (count_section nlp feature_set) (pre ++ row :: post) acc))
  = Some (Counter (words_of nlp row)).
Proof.
  intros acc Hpost. rewrite fold_left_app. cbn [fold_left].
  generalize (fold_left (count_section nlp feature_set) pre acc). intros a.
  assert (Hrow : Dict.get Z.eqb (section_id row)
                   (section_word_counts (count_section nlp feature_set a row))
                 = Some (Counter (words_of nlp row))).
  { unfold count_section. cbn [section_word_counts].
    apply (DictFacts.get_set_same Z.eqb Z.eqb_eq). }
  revert Hrow. generalize (count_section nlp feature_set a row).
  induction post as [|p post IH]; intros b Hb; [exact Hb|].
  cbn [fold_left]. apply IH.
  - intros; apply Hpost; simpl; auto.
  - unfold count_section at 1. cbn [section_word_counts].
    rewrite (DictFacts.get_set_other Z.eqb Z.eqb_eq); [exact Hb|].
    apply Hpost. simpl. auto.
Qed.

(** With distinct section ids every row adds an entry of its own. *)
Lemma fold_section_word_counts_distinct rows : forall acc,
  NoDup (Dict.keys (section_word_counts acc) ++ map section_id rows) ->
  NoDup (Dict.keys (section_word_list acc) ++ map section_id rows) ->
  section_word_counts (fold_left (count_section nlp feature_set) rows acc)
  = section_word_counts acc
      ++ map (fun row => (section_id row, Counter (words_of nlp row))) rows
  /\ List.length
       (section_word_list (fold_left (count_section nlp feature_set) rows acc))
     = (List.length (section_word_list acc) + List.length rows)%nat.
Proof.
  induction rows as [|row rows IH]; intros acc H1 H2.
  - simpl. rewrite app_nil_r. split; [reflexivity|lia].
  - cbn [fold_left map] in *.
    assert (Hn1 : ~ In (section_id row) (Dict.keys (section_word_counts acc))).
    { apply NoDup_remove_2 in H1. rewrite in_app_iff in H1. tauto. }
    assert (Hn2 : ~ In (section_id row) (Dict.keys (section_word_list acc))).
    { apply NoDup_remove_2 in H2. rewrite in_app_iff in H2. tauto. }
    destruct (IH (count_section nlp feature_set acc row)) as [Ha Hb].
    + unfold count_section. cbn [section_word_counts].
      rewrite (DictFacts.set_new Z.eqb Z.eqb_eq) by assumption.
      unfold Dict.keys in *. rewrite map_app, <- app_assoc. exact H1.
    + unfold count_section. cbn [section_word_list].
      rewrite (DictFacts.set_new Z.eqb Z.eqb_eq) by assumption.
      unfold Dict.keys in *. rewrite map_app, <- app_assoc. exact H2.
    + rewrite Ha, Hb. unfold count_section. cbn [section_word_counts section_word_list].
      rewrite !(DictFacts.set_new Z.eqb Z.eqb_eq) by assumption.
      rewrite <- app_assoc, length_app. cbn [List.length app].
      fold (words_of nlp row). split; [reflexivity|lia].
Qed.


End Rows.

(** X10. [collection_word_counts] counts occurrences: the count of a word is
    the number of times it is among the kept words of the sections, and the
    vocabulary is the set of the words kept of some section. *)
Theorem collection_word_counts_occurrences nlp text_set feature_set w :
  let c := count_sections nlp text_set feature_set in
  count w (collection_word_counts c)
  = Z.of_nat (count_occ string_dec (flat_map (words_of nlp) text_set) w)
  /\ (In w (vocabulary c) <-> In w (flat_map (words_of nlp) text_set)).
Proof.
  cbv zeta. unfold count_sections, vocabulary. split.
  - rewrite fold_collection. reflexivity.
  - rewrite fold_vocabulary. simpl. tauto.
Qed.

(** X11. [word_section_counter] counts sections: the count of a word is the
    number of rows of [text_set] whose kept words contain it, however often
    the word occurs in a row. *)
Theorem word_section_counter_rows nlp text_set feature_set w :
  sections_containing (count_sections nlp text_set feature_set) w
  = rows_where (fun row => mem_str w (words_of nlp row)) text_set.
Proof.
  unfold sections_containing, count_sections. rewrite fold_word_sections.
  reflexivity.
Qed.

(** X12. [feature_word_counter] counts, for a feature id and a word, the rows
    whose kept words contain the word and some term of the feature: a row
    counts once even when several synonyms of the feature are in it; so the
    count never exceeds the number of rows that contain the word. *)
Theorem feature_word_counter_rows nlp text_set feature_set f w :
  let c := count_sections nlp text_set feature_set in
  feature_word_count c f w
  = rows_where
      (fun row =>
         mem_str w (words_of nlp row)
         && mentions_feature feature_set f (words_of nlp row))
      text_set
  /\ (0 <= feature_word_count c f w <= sections_containing c w)%Z.
Proof.
  cbv zeta. unfold feature_word_count, sections_containing, count_sections.
  rewrite fold_feature_words, fold_word_sections.
  change (count w (Dict.get_default Z.eqb [] f
                     (feature_word_counter empty_counts))) with 0%Z.
  change (count w (word_section_counter empty_counts)) with 0%Z.
  split; [reflexivity|].
  pose proof (rows_where_and_le
                (fun row => mem_str w (words_of nlp row))
                (fun row => mentions_feature feature_set f (words_of nlp row))
                text_set).
  pose proof (rows_where_le
                (fun row =>
                   mem_str w (words_of nlp row)
                   && mentions_feature feature_set f (words_of nlp row))
                text_set).
  cbv beta in *. lia.
Qed.

(** X13. [doc_counts] maps a section id to the word counts of the last row
    of [text_set] that carries it: rows with the same section id overwrite
    one another. *)
Theorem build_explicit_models_doc_counts nlp pre row post feature_set :
  (forall row', In row' post -> section_id row' <> section_id row) ->
  exists r,
    build_explicit_models nlp (pre ++ row :: post) feature_set = inr r
    /\ Dict.get Z.eqb (section_id row) (doc_counts r)
       = Some (Counter (words_of nlp row)).
Proof.
  intros Hpost.
  destruct (ModelBuilderFacts.build_explicit_models_spec nlp
              (pre ++ row :: post) feature_set)
    as (r & Hr & _ & Hd & _).
  exists r. split; [assumption|]. rewrite Hd. unfold count_sections.
  now apply fold_section_word_counts_last.
Qed.

Lemma build_explicit_models_doc_counts_witness :
  exists r,
    build_explicit_models letters
      [mk_text_row 0 "ab"; mk_text_row 0 "cc"; mk_text_row 1 "d"] []
    = inr r
    /\ Dict.get Z.eqb 0%Z (doc_counts r) = Some [("c", 2%Z)].
Proof.
  apply (build_explicit_models_doc_counts letters
           [mk_text_row 0 "ab"] (mk_text_row 0 "cc") [mk_text_row 1 "d"] []).
  intros row' [<-|[]]. discriminate.
Defined.

(** X14. When the section ids of [text_set] are distinct, [doc_counts] has
    one entry per row, in order, with the word counts of the row; the number
    of sections used by the score is the number of rows; and no word is
    counted in more sections than there are. *)
Theorem build_explicit_models_distinct_sections nlp text_set feature_set :
  NoDup (map section_id text_set) ->
  let c := count_sections nlp text_set feature_set in
  (exists r,
      build_explicit_models nlp text_set feature_set = inr r
      /\ doc_counts r
         = map (fun row => (section_id row, Counter (words_of nlp row)))
             text_set)
  /\ total_sections c = Z.of_nat (List.length text_set)
  /\ forall w, (sections_containing c w <= total_sections c)%Z.
Proof.
  intros Hn. cbv zeta.
  destruct (fold_section_word_counts_distinct nlp feature_set text_set
              empty_counts Hn Hn) as [Hc Hl].
  assert (Ht : total_sections (count_sections nlp text_set feature_set)
               = Z.of_nat (List.length text_set)).
  { unfold total_sections, count_sections. rewrite Hl. reflexivity. }
  split; [|split; [exact Ht|]].
  - destruct (ModelBuilderFacts.build_explicit_models_spec nlp text_set
                feature_set) as (r & Hr & _ & Hd & _).
    exists r. split; [assumption|]. rewrite Hd. exact Hc.
  - intros w. rewrite Ht.
    unfold sections_containing, count_sections. rewrite fold_word_sections.
    pose proof (rows_where_le (fun row => mem_str w (words_of nlp row))
                  text_set).
    change (count w (word_section_counter empty_counts)) with 0%Z. lia.
Qed.

Lemma build_explicit_models_distinct_sections_witness :
  total_sections
    (count_sections letters [mk_text_row 0 "ab"; mk_text_row 1 "b"] [])
  = 2%Z.
Proof.
  apply (build_explicit_models_distinct_sections letters
           [mk_text_row 0 "ab"; mk_text_row 1 "b"] []).
  repeat constructor; simpl; intuition discriminate.
Defined.

(** *** The order of the vocabulary *)

Lemma keys_set_order k (v : Z) (d : counter) :
  Dict.keys (Dict.set String.eqb k v d)
  = if mem_str k (Dict.keys d) then Dict.keys d else Dict.keys d ++ [k].
Proof.
  induction d as [|[k' v'] d IH]; [reflexivity|].
  cbn [Dict.set Dict.keys map fst mem_str existsb] in *.
  fold (mem_str k (map fst d)) in *.
  rewrite (String.eqb_sym k k').
  destruct (String.eqb k' k); cbn [orb map fst]; [reflexivity|].
  unfold Dict.keys in IH. rewrite IH.
  now destruct (mem_str k (map fst d)).
Qed.

Lemma filter_filter {A : Type} (p q : A -> bool) l :
  filter p (filter q l) = filter (fun x => q x && p x) l.
Proof.
  induction l as [|x l IH]; [reflexivity|]. simpl.
  destruct (q x); simpl; [destruct (p x)|]; now rewrite IH.
Qed.

Lemma mem_str_app w xs ys : mem_str w (xs ++ ys) = mem_str w xs || mem_str w ys.
Proof. unfold mem_str. apply existsb_app. Qed.

(** The keys after an update: the old ones, then the new words in order of
    first occurrence. *)
Lemma counter_update_keys_order ws : forall c,
  Dict.keys (counter_update ws c)
  = Dict.keys c
      ++ filter (fun w => negb (mem_str w (Dict.keys c)))
           (first_appearances ws).
Proof.
  induction ws as [|a ws IH]; intros c.
  - simpl. now rewrite app_nil_r.
  - rewrite ModelBuilderFacts.counter_update_cons, IH, keys_set_order.
    cbn [first_appearances filter].
    destruct (mem_str a (Dict.keys c)) eqn:Ea; cbn [negb].
    + f_equal. rewrite filter_filter. apply filter_ext_in. intros x _.
      destruct (String.eqb_spec x a) as [->|Hne]; cbn [negb andb].
      * now rewrite Ea.
      * reflexivity.
    + rewrite <- app_assoc. cbn [app]. do 2 f_equal.
      rewrite filter_filter. apply filter_ext. intros x.
      rewrite mem_str_app. cbn [mem_str existsb]. rewrite orb_false_r.
      rewrite negb_orb. apply andb_comm.
Qed.

Lemma counter_update_app xs ys c :
  counter_update (xs ++ ys) c = counter_update ys (counter_update xs c).
Proof. unfold counter_update. apply fold_left_app. Qed.

Lemma fold_collection_words nlp feature_set rows : forall acc,
  collection_word_counts (fold_left (count_section nlp feature_set) rows acc)
  = counter_update (flat_map (words_of nlp) rows) (collection_word_counts acc).
Proof.
  induction rows as [|row rows IH]; intros acc; [reflexivity|].
  cbn [fold_left flat_map]. rewrite IH, counter_update_app. reflexivity.
Qed.

(** The vocabulary lists the kept words of the sections in order of first
    appearance. *)
Lemma vocabulary_order nlp text_set feature_set :
  vocabulary (count_sections nlp text_set feature_set)
  = first_appearances (flat_map (words_of nlp) text_set).
Proof.
  unfold vocabulary, count_sections.
  rewrite fold_collection_words, counter_update_keys_order.
  cbn [empty_counts collection_word_counts Dict.keys map app].
  apply CorpusReaderLaws.filter_all. reflexivity.
Qed.
Local Open Scope R_scope.

Lemma sum_Z_fold l : forall a, fold_left Z.add l a = (a + fold_right Z.add 0 l)%Z.
Proof.
  induction l as [|x l IH]; intros a; simpl; [lia|]. rewrite IH. lia.
Qed.

Lemma sum_R_IZR l : sum_R (map IZR l) = IZR (sum_Z l).
Proof.
  unfold sum_Z. rewrite sum_Z_fold, Z.add_0_l. unfold sum_R.
  induction l as [|x l IH]; simpl; [reflexivity|].
  now rewrite IH, plus_IZR.
Qed.

Lemma sum_R_div_IZR l t :
  sum_R (map (fun v => IZR v / IZR t) l) = IZR (sum_Z l) / IZR t.
Proof.
  rewrite <- sum_R_IZR. unfold sum_R.
  induction l as [|x l IH]; simpl; [lra|]. rewrite IH. lra.
Qed.

Lemma keys_map_values {V W : Type} (g : string * V -> W)
    (d : Dict.t (K := string) (V := V)) :
  Dict.keys (map (fun kv => (fst kv, g kv)) d) = Dict.keys d.
Proof. unfold Dict.keys. rewrite map_map. reflexivity. Qed.

Lemma get_map_values {V W : Type} (g : V -> W)
    (d : Dict.t (K := string) (V := V)) w :
  Dict.get String.eqb w (map (fun kv => (fst kv, g (snd kv))) d)
  = option_map g (Dict.get String.eqb w d).
Proof.
  induction d as [|[k v] d IH]; simpl; [reflexivity|].
  destruct (String.eqb k w); [reflexivity|exact IH].
Qed.



(** X15. When the vocabulary is not empty the keys of the background model
    are the kept words of the sections, each once, in order of first
    appearance in [text_set] (which is the vocabulary); the probability of a
    word is its count over the total of the counts; the probabilities are
    positive and sum to 1, in exact real arithmetic. *)
Theorem build_explicit_models_background nlp text_set feature_set :
  let c := count_sections nlp text_set feature_set in
  vocabulary c <> [] ->
  exists r,
    build_explicit_models nlp text_set feature_set = inr r
    /\ Dict.keys (model_background r) = vocabulary c
    /\ Dict.keys (model_background r)
       = first_appearances (flat_map (words_of nlp) text_set)
    /\ (forall w, In w (vocabulary c) ->
          Dict.get String.eqb w (model_background r)
          = Some (IZR (count w (collection_word_counts c))
                  / IZR (sum_Z (Dict.values (collection_word_counts c)))))
    /\ (forall p, In p (Dict.values (model_background r)) -> 0 < p)
    /\ sum_R (Dict.values (model_background r)) = 1.
Proof.
  intros c Hv.
  pose proof (ModelBuilderFacts.count_sections_counted nlp text_set
                feature_set) as Hc.
  fold c in Hc.
  destruct (ModelBuilderFacts.build_explicit_models_spec nlp text_set
              feature_set) as (r & Hr & Hbg & _).
  fold c in Hbg.
  assert (Hsize : (1 <= sum_Z (Dict.values (collection_word_counts c)))%Z).
  { apply (ModelBuilderFacts.vocabulary_size_positive c Hc).
    intros E. apply Hv. unfold vocabulary. now rewrite E. }
  apply IZR_le in Hsize.
  exists r. split; [assumption|]. rewrite Hbg.
  split; [|split; [|split; [|split]]].
  - apply (keys_map_values
             (fun kv => IZR (snd kv)
                        / IZR (sum_Z (Dict.values (collection_word_counts c))))).
  - rewrite (keys_map_values
               (fun kv =>
                  IZR (snd kv)
                  / IZR (sum_Z (Dict.values (collection_word_counts c))))).
    apply vocabulary_order.
  - intros w Hw.
    rewrite (get_map_values
               (fun v => IZR v
                         / IZR (sum_Z (Dict.values (collection_word_counts c))))).
    destruct (DictFacts.get_some_values String.eqb String.eqb_eq w
                (collection_word_counts c) _ (counted_collection c Hc) Hw)
      as (v & Hg & _).
    unfold count, Dict.get_default. now rewrite Hg.
  - intros p Hp. unfold Dict.values in Hp. rewrite map_map in Hp.
    apply in_map_iff in Hp as ([k v] & <- & Hin). cbn [fst snd].
    pose proof (counted_collection c Hc) as Hpos. unfold positive in Hpos.
    rewrite Forall_forall in Hpos.
    assert (Hv1 : (1 <= v)%Z)
      by (apply Hpos; unfold Dict.values; now apply (in_map snd) in Hin).
    apply IZR_le in Hv1. unfold Dict.values in Hsize.
    apply Rdiv_lt_0_compat; lra.
  - unfold Dict.values. rewrite map_map. cbn [snd].
    rewrite <- (map_map snd
                  (fun v => IZR v
                            / IZR (sum_Z (map snd (collection_word_counts c))))).
    rewrite (sum_R_div_IZR (map snd (collection_word_counts c))).
    unfold Dict.values in Hsize. field. lra.
Qed.

Lemma build_explicit_models_background_witness :
  exists r,
    build_explicit_models letters [mk_text_row 0 "xxy"] [] = inr r
    /\ sum_R (Dict.values (model_background r)) = 1.
Proof.
  destruct (build_explicit_models_background letters [mk_text_row 0 "xxy"] [])
    as (r & Hr & _ & _ & _ & _ & Hs).
  - vm_compute. discriminate.
  - exists r. split; assumption.
Defined.

(** X16. The topic model of an id that is no feature id of [feature_set] is
    empty, and the topic model of a feature id of [feature_set] has the same
    words as the background model, in the same order: those of the
    vocabulary. *)
Theorem build_explicit_models_topic_words nlp text_set feature_set :
  exists r,
    build_explicit_models nlp text_set feature_set = inr r
    /\ Dict.keys (model_background r)
       = vocabulary (count_sections nlp text_set feature_set)
    /\ forall f,
         if mem_Z f (map FeatureCatalog.feature_id feature_set)
         then Dict.keys (topic_model r f)
              = vocabulary (count_sections nlp text_set feature_set)
         else topic_model r f = [].
Proof.
  destruct (ModelBuilderFacts.build_explicit_models_spec nlp text_set
              feature_set) as (r & Hr & Hbg & _ & Htm & Hno).
  cbv zeta in *. exists r. split; [assumption|]. split.
  - rewrite Hbg.
    apply (keys_map_values
             (fun kv =>
                IZR (snd kv)
                / IZR (sum_Z (Dict.values
                                (collection_word_counts
                                   (count_sections nlp text_set
                                      feature_set)))))).
  - intros f.
    destruct (mem_Z f (map FeatureCatalog.feature_id feature_set)) eqn:E.
    + apply ModelBuilderFacts.mem_Z_In in E.
      apply ModelBuilderFacts.unique_In in E.
      destruct (vocabulary (count_sections nlp text_set feature_set))
        as [|w0 ws] eqn:Ev.
      * rewrite Hno by now left. reflexivity.
      * rewrite Htm by (assumption || discriminate).
        apply ModelBuilderFacts.keys_scores.
    + apply ModelBuilderFacts.mem_Z_not_In in E. apply Hno. right.
      now rewrite ModelBuilderFacts.unique_In.
Qed.



(** X18. The sections returned by [read_annotated_data] are a [text_set]
    with distinct section ids: [build_explicit_models] on them returns,
    [doc_counts] has one entry per line read, keyed 0, 1, ... in order, the
    number of sections used by the score is the number of lines read, and
    no word is counted in more sections than that. *)
Theorem read_then_build nlp lines nlines d feature_set :
  CorpusReader.read_annotated_data lines nlines = inr d ->
  let c := count_sections nlp (text_set_of d) feature_set in
  (exists r,
      build_explicit_models nlp (text_set_of d) feature_set = inr r
      /\ Dict.keys (doc_counts r)
         = zrange 0 (CorpusReader.lines_read nlines lines))
  /\ total_sections c = Z.of_nat (CorpusReader.lines_read nlines lines)
  /\ forall w, (sections_containing c w <= total_sections c)%Z.
Proof.
  intros H. cbv zeta.
  pose proof (CorpusReaderFacts.read_annotated_data_length _ _ _ H) as Hlen.
  pose proof (CorpusReaderFacts.read_annotated_data_inr _ _ _ H) as Hs.
  assert (Hids : map section_id (text_set_of d)
                 = zrange 0 (CorpusReader.lines_read nlines lines)).
  { unfold text_set_of. rewrite map_map. cbn [section_id].
    rewrite Hs, CorpusReaderFacts.sections_of_ids,
      <- (CorpusReaderFacts.sections_of_length (-1) 0), <- Hs, Hlen.
    reflexivity. }
  assert (Hn : NoDup (map section_id (text_set_of d))).
  { rewrite Hids.
    pose proof (CorpusReaderFacts.zrange_increasing
                  (CorpusReader.lines_read nlines lines) 0) as Hsorted.
    revert Hsorted. generalize (zrange 0 (CorpusReader.lines_read nlines lines)).
    intros l Hl. induction Hl as [|a l Hl IH Hall]; constructor; [|assumption].
    intros Hin. rewrite Forall_forall in Hall. specialize (Hall a Hin).
    change (a < a)%Z in Hall. lia. }
  assert (Hrows : List.length (text_set_of d)
                  = CorpusReader.lines_read nlines lines).
  { unfold text_set_of. now rewrite length_map. }
  destruct (fold_section_word_counts_distinct nlp feature_set (text_set_of d)
              empty_counts Hn Hn) as [Hc Hl].
  assert (Ht : total_sections (count_sections nlp (text_set_of d) feature_set)
               = Z.of_nat (CorpusReader.lines_read nlines lines)).
  { unfold total_sections, count_sections. rewrite Hl, Hrows. reflexivity. }
  split; [|split; [exact Ht|]].
  - destruct (ModelBuilderFacts.build_explicit_models_spec nlp (text_set_of d)
                feature_set) as (r & Hr & _ & Hd & _).
    exists r. split; [assumption|]. rewrite Hd.
    unfold count_sections. rewrite Hc. cbn [empty_counts section_word_counts app].
    unfold Dict.keys. rewrite map_map. cbn [fst]. exact Hids.
  - intros w. rewrite Ht.
    unfold sections_containing, count_sections. rewrite fold_word_sections.
    pose proof (rows_where_le (fun row => mem_str w (words_of nlp row))
                  (text_set_of d)) as Hle.
    change (count w (word_section_counter empty_counts)) with 0%Z.
    rewrite Hrows in Hle. lia.
Qed.

Lemma read_then_build_witness :
  total_sections
    (count_sections letters
       (text_set_of
          (CorpusReader.mk_annotated_data
             [CorpusReader.mk_section_row 0 0 "t" true;
              CorpusReader.mk_section_row 0 1 "ab" false]
             [] []))
       [])
  = 2%Z.
Proof.
  apply (read_then_build letters ["[t] T"; "##ab"] None
           (CorpusReader.mk_annotated_data
              [CorpusReader.mk_section_row 0 0 "t" true;
               CorpusReader.mk_section_row 0 1 "ab" false]
              [] [])
           [] eq_refl).
Defined.

End ModelBuilderLaws.
